(** * rootpy.tree.filtering: cut-flow accounting

    A shallow embedding of [rootpy/tree/filtering.py] and the properties of
    its counters, serialisation, merging and list evaluation.

    Modelling conventions.
    - Python objects are mutated in place; here every method takes the
      object and returns the updated object (explicit state passing).
    - A raised exception is an [inl] outcome of the [result] monad.  The
      state an uncaught exception leaves behind is not tracked.
    - Python integers are [Z].  The numeric weights returned by count
      functions and the values stored in [details] are integers as well.
    - Dictionaries are [gmap string _]; iteration over a dictionary is a
      traversal of [map_to_list].
    - Events, collection objects and the outside world touched by hooks
      are abstract types.  A hook is a transformer of the outside world.
    - The overridable methods [passes] and [filtered] are fields of the
      record of the derived class.
    - A serialised state shares its dictionaries with the filter it was
      taken from; the sharing is not modelled, the state holds their
      contents at the time it is taken. *)

From Stdlib Require Import ZArith String.
From stdpp Require Import base option list gmap strings fin_maps.

Local Open Scope string_scope.
Local Open Scope list_scope.
Local Open Scope Z_scope.

(** ** Exceptions *)

Inductive exn : Type :=
  | ValueError (msg : string)
  | KeyError (key : string)
  | AttributeError (attr : string)
  | Untyped (key : string).

Definition result (A : Type) : Type := (exn + A)%type.

Definition raise {A : Type} (e : exn) : result A := inl e.

#[global] Instance result_ret : MRet result := fun A x => inr x.

#[global] Instance result_bind : MBind result := fun A B k m =>
  match m with
  | inl e => inl e
  | inr x => k x
  end.

#[global] Instance result_fmap : FMap result := fun A B g m =>
  match m with
  | inl e => inl e
  | inr x => inr (g x)
  end.

(** ** Values stored in a serialised state mapping *)

Inductive value : Type :=
  | VStr (s : string)
  | VInt (z : Z)
  | VMap (m : gmap string Z).

(** [state[key]]: a missing key raises [KeyError]. *)
Definition getitem (state : gmap string value) (key : string) : result value :=
  match state !! key with
  | Some v => mret v
  | None => raise (KeyError key)
  end.

(** The attributes of the model are typed; a state entry of another shape
    than the attribute it is stored in falls outside the model. *)
Definition as_str (key : string) (v : value) : result string :=
  match v with VStr s => mret s | _ => raise (Untyped key) end.

Definition as_int (key : string) (v : value) : result Z :=
  match v with VInt z => mret z | _ => raise (Untyped key) end.

Definition as_map (key : string) (v : value) : result (gmap string Z) :=
  match v with VMap m => mret m | _ => raise (Untyped key) end.

(** ** class Filter *)

Module Filter.
Section defs.
Context {Event World : Type}.

Record t : Type := mk {
  name : string;
  total : Z;
  passing : Z;
  count_funcs : gmap string (Event -> Z);
  count_funcs_total : gmap string Z;
  count_funcs_passing : gmap string Z;
  details : gmap string Z;
  hooks : option (list (World -> World));
  passthrough : bool;
  was_passed : bool
}.

(** [for name in self.count_funcs.iterkeys(): d[name] = 0.] *)
Definition zero_counts (keys : list string) : gmap string Z :=
  foldl (fun d k => <[k := 0]> d) ∅ keys.

(** [__init__].  [cls] is [self.__class__.__name__].  The loop over the
    keys of [count_funcs] rebinds the local [name], so after a non-empty
    loop [name] is the last key visited. *)
Definition __init__ (cls : string)
    (hooks : option (list (World -> World)))
    (passthrough : bool)
    (name : option string)
    (count_funcs : option (gmap string (Event -> Z))) : t :=
  let cf := match count_funcs with Some c => c | None => ∅ end in
  let keys := (map_to_list cf).*1 in
  let name := foldl (fun _ k => Some k) name keys in
  {| name := match name with None => cls | Some n => n end;
     total := 0;
     passing := 0;
     count_funcs := cf;
     count_funcs_total := zero_counts keys;
     count_funcs_passing := zero_counts keys;
     details := ∅;
     hooks := hooks;
     passthrough := passthrough;
     was_passed := false |}.

(** [Filter()] *)
Definition new : t := __init__ "Filter" None false None None.

Definition __getstate__ (self : t) : gmap string value :=
  {[ "name" := VStr (name self);
     "total" := VInt (total self);
     "passing" := VInt (passing self);
     "details" := VMap (details self);
     "count_funcs_total" := VMap (count_funcs_total self);
     "count_funcs_passing" := VMap (count_funcs_passing self) ]}.

Definition __setstate__ (self : t) (state : gmap string value) : result t :=
  n ← getitem state "name" ≫= as_str "name";
  tot ← getitem state "total" ≫= as_int "total";
  pas ← getitem state "passing" ≫= as_int "passing";
  det ← getitem state "details" ≫= as_map "details";
  cft ← getitem state "count_funcs_total" ≫= as_map "count_funcs_total";
  cfp ← getitem state "count_funcs_passing" ≫= as_map "count_funcs_passing";
  mret {| name := n;
          total := tot;
          passing := pas;
          count_funcs := count_funcs self;
          count_funcs_total := cft;
          count_funcs_passing := cfp;
          details := det;
          hooks := hooks self;
          passthrough := passthrough self;
          was_passed := was_passed self |}.

(** [d[key] += count]: reading a missing key raises [KeyError]. *)
Definition iadd (d : gmap string Z) (key : string) (count : Z)
    : result (gmap string Z) :=
  match d !! key with
  | Some v => mret (<[key := v + count]> d)
  | None => raise (KeyError key)
  end.

(** The list comprehension of [add]:
    [(detail, left.details[detail] + right.details[detail])
     for detail in left.details.keys()]. *)
Fixpoint sum_details (items : list (string * Z)) (right : gmap string Z)
    : result (list (string * Z)) :=
  match items with
  | [] => mret []
  | (detail, l) :: rest =>
      match right !! detail with
      | Some r => cons (detail, l + r) <$> sum_details rest right
      | None => raise (KeyError detail)
      end
  end.

Definition add (left right : t) : result t :=
  if bool_decide (name left ≠ name right)
  then raise (ValueError "Attemping to add filters with different names")
  else
    let newfilter := new in
    pairs ← sum_details (map_to_list (details left)) (details right);
    mret {| name := name left;
            total := total left + total right;
            passing := passing left + passing right;
            count_funcs := count_funcs newfilter;
            count_funcs_total := count_funcs_total newfilter;
            count_funcs_passing := count_funcs_passing newfilter;
            details := list_to_map pairs;
            hooks := hooks newfilter;
            passthrough := passthrough newfilter;
            was_passed := was_passed newfilter |}.

Definition __add__ (self other : t) : result t := add self other.

(** The loop of [passed] over [self.count_funcs.iteritems()]. *)
Fixpoint count_passed (items : list (string * (Event -> Z))) (event : Event)
    (tp : gmap string Z * gmap string Z)
    : result (gmap string Z * gmap string Z) :=
  match items with
  | [] => mret tp
  | (name, func) :: rest =>
      let count := func event in
      tot ← iadd tp.1 name count;
      pas ← iadd tp.2 name count;
      count_passed rest event (tot, pas)
  end.

(** The loop of [failed] over [self.count_funcs.iteritems()]. *)
Fixpoint count_failed (items : list (string * (Event -> Z))) (event : Event)
    (tot : gmap string Z) : result (gmap string Z) :=
  match items with
  | [] => mret tot
  | (name, func) :: rest =>
      let count := func event in
      tot ← iadd tot name count;
      count_failed rest event tot
  end.

Definition passed (self : t) (event : Event) : result t :=
  tp ← count_passed (map_to_list (count_funcs self)) event
         (count_funcs_total self, count_funcs_passing self);
  mret {| name := name self;
          total := total self + 1;
          passing := passing self + 1;
          count_funcs := count_funcs self;
          count_funcs_total := tp.1;
          count_funcs_passing := tp.2;
          details := details self;
          hooks := hooks self;
          passthrough := passthrough self;
          was_passed := true |}.

Definition failed (self : t) (event : Event) : result t :=
  tot ← count_failed (map_to_list (count_funcs self)) event
          (count_funcs_total self);
  mret {| name := name self;
          total := total self + 1;
          passing := passing self;
          count_funcs := count_funcs self;
          count_funcs_total := tot;
          count_funcs_passing := count_funcs_passing self;
          details := details self;
          hooks := hooks self;
          passthrough := passthrough self;
          was_passed := false |}.

End defs.
Arguments t : clear implicits.
End Filter.

(** ** class EventFilter(Filter) *)

Module EventFilter.
Section defs.
Context {Event World : Type}.

(** The inherited [Filter] attributes and the overridable [passes]
    method, whose outcome is [None], a true value or a false value. *)
Record t : Type := mk {
  base : Filter.t Event World;
  passes : Event -> option bool
}.

(** [passes] as the base class defines it. *)
Definition passes_default (event : Event) : option bool := Some true.

(** The constructor is inherited from [Filter]; a derived class brings
    its own [passes]. *)
Definition __init__ (cls : string)
    (hooks : option (list (World -> World)))
    (passthrough : bool)
    (name : option string)
    (count_funcs : option (gmap string (Event -> Z)))
    (passes : Event -> option bool) : t :=
  {| base := Filter.__init__ cls hooks passthrough name count_funcs;
     passes := passes |}.

(** [if self.hooks: for hook in self.hooks: hook()] *)
Definition run_hooks (hooks : option (list (World -> World))) (w : World)
    : World :=
  match hooks with
  | Some (hook :: rest) => foldl (fun w hook => hook w) w (hook :: rest)
  | Some [] | None => w
  end.

Definition __call__ (self : t) (event : Event) (w : World)
    : result (bool * t * World) :=
  if Filter.passthrough (base self) then
    let w := run_hooks (Filter.hooks (base self)) w in
    b ← Filter.passed (base self) event;
    mret (true, {| base := b; passes := passes self |}, w)
  else
    match passes self event with
    | None => mret (false, self, w)
    | Some true =>
        let w := run_hooks (Filter.hooks (base self)) w in
        b ← Filter.passed (base self) event;
        mret (true, {| base := b; passes := passes self |}, w)
    | Some false =>
        b ← Filter.failed (base self) event;
        mret (false, {| base := b; passes := passes self |}, w)
    end.

End defs.
Arguments t : clear implicits.
End EventFilter.

(** ** class ObjectFilter(Filter) *)

Module ObjectFilter.
Section defs.
Context {Event World Obj : Type}.

Record t : Type := mk {
  base : Filter.t Event World;
  count_events : bool;
  filtered : Event -> list Obj -> list Obj
}.

(** [filtered] as the base class defines it. *)
Definition filtered_default (event : Event) (collection : list Obj)
    : list Obj := collection.

(** [self.count_events = count_events] and then the constructor of
    [Filter]; a derived class brings its own [filtered]. *)
Definition __init__ (cls : string)
    (count_events : bool)
    (hooks : option (list (World -> World)))
    (passthrough : bool)
    (name : option string)
    (count_funcs : option (gmap string (Event -> Z)))
    (filtered : Event -> list Obj -> list Obj) : t :=
  {| base := Filter.__init__ cls hooks passthrough name count_funcs;
     count_events := count_events;
     filtered := filtered |}.

Definition len (collection : list Obj) : Z := Z.of_nat (length collection).

(** Returns the retained collection and the updated filter. *)
Definition __call__ (self : t) (event : Event) (collection : list Obj)
    : list Obj * t :=
  let b := base self in
  let total :=
    if count_events self then Filter.total b + 1
    else Filter.total b + len collection in
  let collection :=
    if negb (Filter.passthrough b) then filtered self event collection
    else collection in
  let '(was_passed, passing) :=
    if 0 <? len collection then
      (true, if count_events self then Filter.passing b + 1
             else Filter.passing b + len collection)
    else (false, Filter.passing b) in
  (collection,
   {| base := {| Filter.name := Filter.name b;
                 Filter.total := total;
                 Filter.passing := passing;
                 Filter.count_funcs := Filter.count_funcs b;
                 Filter.count_funcs_total := Filter.count_funcs_total b;
                 Filter.count_funcs_passing := Filter.count_funcs_passing b;
                 Filter.details := Filter.details b;
                 Filter.hooks := Filter.hooks b;
                 Filter.passthrough := Filter.passthrough b;
                 Filter.was_passed := was_passed |};
      count_events := count_events self;
      filtered := filtered self |}).

End defs.
Arguments t : clear implicits.
End ObjectFilter.

(** ** class FilterList(list) *)

Module FilterList.
Section defs.
Context {Event World : Type}.

(** An element is a [Filter] or a [dict] holding a serialised state. *)
Inductive item : Type :=
  | IFilter (f : Filter.t Event World)
  | IState (state : gmap string value).

Definition t : Type := list item.

(** [if type(f) is dict: _f = Filter(); _f.__setstate__(f); f = _f] *)
Definition upgrade (f : item) : result (Filter.t Event World) :=
  match f with
  | IState state => Filter.__setstate__ Filter.new state
  | IFilter f => mret f
  end.

(** The loop of [merge] over [zip(list1, list2)]. *)
Fixpoint merge_pairs (pairs : list (item * item)) : result t :=
  match pairs with
  | [] => mret []
  | (f1, f2) :: rest =>
      f1 ← upgrade f1;
      f2 ← upgrade f2;
      f ← Filter.__add__ f1 f2;
      cons (IFilter f) <$> merge_pairs rest
  end.

(** Both arguments are lists by their type, so neither [isinstance]
    check of the source can fail. *)
Definition merge (list1 list2 : t) : result t :=
  merge_pairs (zip list1 list2).

(** Attribute access on an element; a [dict] has neither attribute. *)
Definition item_total (f : item) : result Z :=
  match f with
  | IFilter f => mret (Filter.total f)
  | IState _ => raise (AttributeError "total")
  end.

Definition item_passing (f : item) : result Z :=
  match f with
  | IFilter f => mret (Filter.passing f)
  | IState _ => raise (AttributeError "passing")
  end.

(** [self[0].total] when the list is not empty, else [0]. *)
Definition total (self : t) : result Z :=
  match self with
  | f :: _ => item_total f
  | [] => mret 0
  end.

(** [self[-1].passing] when the list is not empty, else [0]. *)
Definition passing (self : t) : result Z :=
  match last self with
  | Some f => item_passing f
  | None => mret 0
  end.

(** [filter.__getstate__()] on an element; a [dict] has no such method. *)
Definition item_getstate (f : item) : result (gmap string value) :=
  match f with
  | IFilter f => mret (Filter.__getstate__ f)
  | IState _ => raise (AttributeError "__getstate__")
  end.

(** [[filter.__getstate__() for filter in self]] *)
Fixpoint basic (self : t) : result (list (gmap string value)) :=
  match self with
  | [] => mret []
  | filter :: rest =>
      state ← item_getstate filter;
      cons state <$> basic rest
  end.

End defs.
Arguments item : clear implicits.
Arguments t : clear implicits.
End FilterList.

(** ** class EventFilterList(FilterList) *)

Module EventFilterList.
Section defs.
Context {Event World : Type}.

Definition t : Type := list (EventFilter.t Event World).

(** [for filter in self: if not filter(event): return False]
    and [return True] after the loop.  The list returned holds the
    filters as the call left them. *)
Fixpoint __call__ (self : t) (event : Event) (w : World)
    : result (bool * t * World) :=
  match self with
  | [] => mret (true, [], w)
  | filter :: rest =>
      '(ok, filter, w) ← EventFilter.__call__ filter event w;
      if negb ok then mret (false, filter :: rest, w)
      else
        '(ok, rest, w) ← __call__ rest event w;
        mret (ok, filter :: rest, w)
  end.

End defs.
Arguments t : clear implicits.
End EventFilterList.

(** ** class ObjectFilterList(FilterList) *)

Module ObjectFilterList.
Section defs.
Context {Event World Obj : Type}.

Definition t : Type := list (ObjectFilter.t Event World Obj).

(** The collection is handed from filter to filter; the first empty
    result ends the call with [[]].  The list returned holds the filters
    as the call left them. *)
Fixpoint __call__ (self : t) (event : Event) (collection : list Obj)
    : list Obj * t :=
  match self with
  | [] => (collection, [])
  | filter :: rest =>
      let '(passing_objects, filter) :=
        ObjectFilter.__call__ filter event collection in
      match passing_objects with
      | [] => ([], filter :: rest)
      | _ :: _ =>
          let '(passing_objects, rest) := __call__ rest event passing_objects in
          (passing_objects, filter :: rest)
      end
  end.

End defs.
Arguments t : clear implicits.
End ObjectFilterList.

(** * Specification vocabulary *)

(** A call of one of the two accounting methods of [Filter]. *)
Inductive call (Event : Type) : Type :=
  | Passed (event : Event)
  | Failed (event : Event).
Arguments Passed {Event} event.
Arguments Failed {Event} event.

Section vocabulary.
Context {Event World : Type}.
Implicit Types f : Filter.t Event World.

Definition do_call f (c : call Event) : result (Filter.t Event World) :=
  match c with
  | Passed event => Filter.passed f event
  | Failed event => Filter.failed f event
  end.

Fixpoint do_calls f (cs : list (call Event)) : result (Filter.t Event World) :=
  match cs with
  | [] => mret f
  | c :: cs => f ← do_call f c; do_calls f cs
  end.

Definition is_passed (c : call Event) : bool :=
  match c with Passed _ => true | Failed _ => false end.

(** The number of [passed] calls in a sequence of calls. *)
Definition n_passed (cs : list (call Event)) : nat :=
  length (List.filter is_passed cs).

(** Every registered label has a passing and a total tally, and the
    two are related by [R]. *)
Definition tallies (R : Z -> Z -> Prop)
    (cf : gmap string (Event -> Z)) (tot pas : gmap string Z) : Prop :=
  forall k, is_Some (cf !! k) ->
    exists a b, pas !! k = Some a /\ tot !! k = Some b /\ R a b.

Definition tallies_of (R : Z -> Z -> Prop) f : Prop :=
  tallies R (Filter.count_funcs f)
    (Filter.count_funcs_total f) (Filter.count_funcs_passing f).

(** [count_funcs_passing[k] <= count_funcs_total[k]] for every
    registered label [k]. *)
Definition counts_ok f : Prop := tallies_of Z.le f.

Definition nonneg (g : Event -> Z) : Prop := forall event, 0 <= g event.

Definition any {A : Type} (x : A) : Prop := True.

(** Every registered count function satisfies [weight_ok]. *)
Definition weights_ok (weight_ok : (Event -> Z) -> Prop) f : Prop :=
  forall k g, Filter.count_funcs f !! k = Some g -> weight_ok g.

(** A [filtered] override that returns no more objects than it is given. *)
Definition shrinking {Obj : Type} (flt : Event -> list Obj -> list Obj)
    : Prop :=
  forall event collection,
    (length (flt event collection) <= length collection)%nat.

(** The filters obtained from a freshly constructed one by [passed],
    [failed], [EventFilter.__call__], [ObjectFilter.__call__] and [add].
    [weight_ok] constrains the registered count functions and
    [filtered_ok] the [filtered] overrides. *)
Inductive reachable {Obj : Type}
    (weight_ok : (Event -> Z) -> Prop)
    (filtered_ok : (Event -> list Obj -> list Obj) -> Prop)
    : Filter.t Event World -> Prop :=
  | reach_init cls hooks passthrough name count_funcs :
      (forall cf k g, count_funcs = Some cf -> cf !! k = Some g -> weight_ok g) ->
      reachable weight_ok filtered_ok
        (Filter.__init__ cls hooks passthrough name count_funcs)
  | reach_passed f event f' :
      reachable weight_ok filtered_ok f ->
      Filter.passed f event = inr f' ->
      reachable weight_ok filtered_ok f'
  | reach_failed f event f' :
      reachable weight_ok filtered_ok f ->
      Filter.failed f event = inr f' ->
      reachable weight_ok filtered_ok f'
  | reach_event f passes event w ok ef' w' :
      reachable weight_ok filtered_ok f ->
      EventFilter.__call__ (EventFilter.mk f passes) event w
        = inr (ok, ef', w') ->
      reachable weight_ok filtered_ok (EventFilter.base ef')
  | reach_object f count_events flt event collection retained of' :
      reachable weight_ok filtered_ok f ->
      filtered_ok flt ->
      ObjectFilter.__call__ (ObjectFilter.mk f count_events flt)
        event collection = (retained, of') ->
      reachable weight_ok filtered_ok (ObjectFilter.base of')
  | reach_add left right f :
      reachable weight_ok filtered_ok left ->
      reachable weight_ok filtered_ok right ->
      Filter.add left right = inr f ->
      reachable weight_ok filtered_ok f.

(** The filter [add] builds when it raises nothing. *)
Definition sum_of (left right : Filter.t Event World)
    : Filter.t Event World :=
  {| Filter.name := Filter.name left;
     Filter.total := Filter.total left + Filter.total right;
     Filter.passing := Filter.passing left + Filter.passing right;
     Filter.count_funcs := ∅;
     Filter.count_funcs_total := ∅;
     Filter.count_funcs_passing := ∅;
     Filter.details :=
       map_zip_with Z.add (Filter.details left) (Filter.details right);
     Filter.hooks := None;
     Filter.passthrough := false;
     Filter.was_passed := false |}.

(** The six keys of a serialised state. *)
Definition state_keys : gset string :=
  {[ "name"; "total"; "passing"; "details";
     "count_funcs_total"; "count_funcs_passing" ]}.

(** Position by position, both elements upgrade to filters of one name,
    and every [details] key of the left one is a key of the right one. *)
Definition mergeable (x y : FilterList.item Event World) : Prop :=
  exists f g,
    FilterList.upgrade x = inr f /\ FilterList.upgrade y = inr g /\
    Filter.name f = Filter.name g /\
    dom (Filter.details f) ⊆ dom (Filter.details g).

(** Position by position, both elements upgrade to filters of one name. *)
Definition same_named (x y : FilterList.item Event World) : Prop :=
  exists f g,
    FilterList.upgrade x = inr f /\ FilterList.upgrade y = inr g /\
    Filter.name f = Filter.name g.

(** Position by position, [h] is the filter [add] returns for the
    upgraded elements. *)
Definition merged (x y h : FilterList.item Event World) : Prop :=
  exists f g s,
    FilterList.upgrade x = inr f /\ FilterList.upgrade y = inr g /\
    Filter.add f g = inr s /\ h = FilterList.IFilter s.

End vocabulary.

(** ** Vocabulary for streams of events and for cut-flows *)

Section streams.
Context {Event World : Type}.

(** What a call of an event filter decides about an event: in passthrough
    mode the event is accepted, otherwise [passes] decides. *)
Definition verdict (self : EventFilter.t Event World) (event : Event)
    : option bool :=
  if Filter.passthrough (EventFilter.base self) then Some true
  else EventFilter.passes self event.

Definition counted (self : EventFilter.t Event World) (event : Event) : bool :=
  match verdict self event with Some _ => true | None => false end.

Definition accepted (self : EventFilter.t Event World) (event : Event) : bool :=
  match verdict self event with Some true => true | _ => false end.






(** An element of a list that is a filter without count functions and
    without weighted tallies, as [add] builds them. *)
Definition is_sum (h : FilterList.item Event World) : Prop :=
  exists s, h = FilterList.IFilter s /\
    Filter.count_funcs s = ∅ /\ Filter.count_funcs_total s = ∅ /\
    Filter.count_funcs_passing s = ∅.







(** A filter restored from the serialised state of [f]. *)
Definition restored (f : Filter.t Event World) : Filter.t Event World :=
  {| Filter.name := Filter.name f;
     Filter.total := Filter.total f;
     Filter.passing := Filter.passing f;
     Filter.count_funcs := ∅;
     Filter.count_funcs_total := Filter.count_funcs_total f;
     Filter.count_funcs_passing := Filter.count_funcs_passing f;
     Filter.details := Filter.details f;
     Filter.hooks := None;
     Filter.passthrough := false;
     Filter.was_passed := false |}.

End streams.

(** ** Concrete filters used in the examples *)

Module Scenario.

(** A filter with the given name, counters and details, and nothing
    else set. *)
Definition filter (name : string) (total passing : Z)
    (details : gmap string Z) : Filter.t unit unit :=
  {| Filter.name := name; Filter.total := total; Filter.passing := passing;
     Filter.count_funcs := ∅; Filter.count_funcs_total := ∅;
     Filter.count_funcs_passing := ∅; Filter.details := details;
     Filter.hooks := None; Filter.passthrough := false;
     Filter.was_passed := false |}.

(** Filter "A" of a first run and of a second run. *)
Definition A1 : Filter.t unit unit := filter "A" 10 7 ∅.
Definition A2 : Filter.t unit unit := filter "A" 5 3 ∅.

(** Two same-named filters whose [details] keys diverge. *)
Definition Dx : Filter.t unit unit := filter "A" 1 1 {[ "x" := 1 ]}.
Definition Dxy : Filter.t unit unit :=
  filter "A" 2 1 {[ "x" := 2; "y" := 5 ]}.
Definition D0 : Filter.t unit unit := filter "A" 1 0 ∅.

(** A filter with one count function of weight 3 that has seen one
    passing event. *)
Definition W : Filter.t unit unit :=
  {| Filter.name := "A"; Filter.total := 1; Filter.passing := 1;
     Filter.count_funcs := {[ "w" := fun _ => 3 ]};
     Filter.count_funcs_total := {[ "w" := 3 ]};
     Filter.count_funcs_passing := {[ "w" := 3 ]};
     Filter.details := ∅;
     Filter.hooks := None; Filter.passthrough := false;
     Filter.was_passed := true |}.

(** A fresh filter whose one count function returns the weight -1. *)
Definition neg : Filter.t unit unit :=
  Filter.__init__ "Filter" None false None (Some {[ "w" := fun _ => -1 ]}).

(** [neg] after one [failed] call. *)
Definition neg_failed : Filter.t unit unit :=
  match Filter.failed neg () with inr f => f | inl _ => neg end.

(** An object filter in object-count mode whose [filtered] returns one
    object more than it is given. *)
Definition growing : ObjectFilter.t unit unit unit :=
  ObjectFilter.__init__ "growing" false None false None None
    (fun _ collection => () :: collection).

(** A fresh filter whose one count function returns the weight 3, and
    the same filter after one [passed] call. *)
Definition pos : Filter.t unit unit :=
  Filter.__init__ "Filter" None false None (Some {[ "w" := fun _ => 3 ]}).

Definition pos_passed : Filter.t unit unit :=
  match Filter.passed pos () with inr f => f | inl _ => pos end.

(** An event filter over numbered events: it abstains on event 0,
    rejects event 1 and accepts every other event.  Its one hook
    increments a counter, which is all there is to the outside world. *)
Definition picky : EventFilter.t nat nat :=
  EventFilter.__init__ "picky" (Some [S]) false None None
    (fun event =>
       match event with
       | O => None
       | S O => Some false
       | _ => Some true
       end).

(** Filters that accept every event and that reject every event. *)
Definition accepting (name : string) : EventFilter.t nat nat :=
  EventFilter.__init__ "EventFilter" None false (Some name) None
    EventFilter.passes_default.

Definition rejecting (name : string) : EventFilter.t nat nat :=
  EventFilter.__init__ "EventFilter" None false (Some name) None
    (fun _ => Some false).

(** An object filter that keeps the even numbers, in either counting
    mode. *)
Definition evens (count_events : bool) : ObjectFilter.t unit unit nat :=
  ObjectFilter.__init__ "evens" count_events None false None None
    (fun _ collection => List.filter Nat.even collection).

(** Two runs of a cut-flow of three filters; the second run holds
    its first filter as a serialised state. *)
Definition run1 : FilterList.t unit unit :=
  [FilterList.IFilter (filter "cut1" 10 7 ∅);
   FilterList.IFilter (filter "cut2" 7 5 {[ "x" := 1 ]});
   FilterList.IFilter (filter "cut3" 5 2 ∅)].

Definition run2 : FilterList.t unit unit :=
  [FilterList.IState (Filter.__getstate__ (filter "cut1" 20 12 ∅));
   FilterList.IFilter (filter "cut2" 12 6 {[ "x" := 4 ]});
   FilterList.IFilter (filter "cut3" 6 3 ∅)].

(** A filter with a count function "w" whose tallies have been replaced
    by empty ones, as [__setstate__] does with the state of a merged
    filter. *)
Definition untallied : Filter.t unit unit :=
  {| Filter.name := "A"; Filter.total := 2; Filter.passing := 1;
     Filter.count_funcs := {[ "w" := fun _ => 3 ]};
     Filter.count_funcs_total := ∅;
     Filter.count_funcs_passing := ∅;
     Filter.details := ∅;
     Filter.hooks := None; Filter.passthrough := false;
     Filter.was_passed := false |}.

(** The first run with one more element, a state without any key. *)
Definition run1_longer : FilterList.t unit unit :=
  run1 ++ [FilterList.IState ∅].

(** Two runs held as filters only. *)
Definition cuts1 : FilterList.t unit unit :=
  [FilterList.IFilter W; FilterList.IFilter Dx].

Definition cuts2 : FilterList.t unit unit :=
  [FilterList.IFilter W; FilterList.IFilter Dxy].

(** An object filter that keeps the numbers below a bound. *)
Definition below (bound : nat) (count_events : bool)
    : ObjectFilter.t unit unit nat :=
  ObjectFilter.__init__ "below" count_events None false None None
    (fun _ collection => List.filter (fun n => Nat.ltb n bound) collection).

End Scenario.

(** * The result monad *)

Lemma bind_inr {A B : Type} (m : result A) (k : A -> result B) (y : B) :
  m ≫= k = inr y <-> exists x, m = inr x /\ k x = inr y.
Proof.
  destruct m as [e|x]; simpl.
  - split; [discriminate | intros (x & Hx & _); discriminate].
  - split; [eauto | intros (x' & [= <-] & Hk); exact Hk].
Qed.

Lemma fmap_inr {A B : Type} (g : A -> B) (m : result A) (y : B) :
  g <$> m = inr y <-> exists x, m = inr x /\ y = g x.
Proof.
  destruct m as [e|x]; simpl.
  - split; [discriminate | intros (x & Hx & _); discriminate].
  - split; [intros [= <-]; eauto | intros (x' & [= <-] & ->); reflexivity].
Qed.

(** * Weighted tallies *)

Section tally_lemmas.
Context {Event World : Type}.
Implicit Types f : Filter.t Event World.
Implicit Types tot pas : gmap string Z.
Implicit Types cf : gmap string (Event -> Z).
Implicit Types items : list (string * (Event -> Z)).
Implicit Types event : Event.

Lemma zero_counts_from (keys : list string) (d : gmap string Z) k :
  foldl (fun d k => <[k := 0]> d) d keys !! k
  = if decide (k ∈ keys) then Some 0 else d !! k.
Proof.
  revert d. induction keys as [|k' keys IH]; intros d; cbn [foldl].
  - case_decide as Hin; [by apply elem_of_nil in Hin | reflexivity].
  - rewrite IH.
    destruct (decide (k ∈ keys)) as [Hin|Hout],
             (decide (k ∈ k' :: keys)) as [Hin'|Hout']; try reflexivity.
    + exfalso. apply Hout'. by apply list_elem_of_further.
    + apply elem_of_cons in Hin' as [->|Hin']; [|contradiction].
      by rewrite lookup_insert_eq.
    + rewrite lookup_insert_ne; [reflexivity|].
      intros ->. apply Hout', list_elem_of_here.
Qed.

Lemma zero_counts_lookup (keys : list string) k :
  Filter.zero_counts keys !! k = if decide (k ∈ keys) then Some 0 else None.
Proof. unfold Filter.zero_counts. by rewrite zero_counts_from, lookup_empty. Qed.

Lemma iadd_inr (d : gmap string Z) key count d' :
  Filter.iadd d key count = inr d' <->
  exists v, d !! key = Some v /\ d' = <[key := v + count]> d.
Proof.
  unfold Filter.iadd. destruct (d !! key) as [v|]; simpl.
  - split; [intros [= <-]; eauto | intros (v' & [= <-] & ->); reflexivity].
  - split; [discriminate | intros (v' & [=] & _)].
Qed.

Variable R : Z -> Z -> Prop.
Variable weight_ok : (Event -> Z) -> Prop.
Hypothesis R_both : forall a b c, R a b -> R (a + c) (b + c).
Hypothesis R_total : forall a b g event, weight_ok g -> R a b -> R a (b + g event).
Hypothesis R_zero : R 0 0.

Lemma tallies_both cf tot pas key count :
  tallies R cf tot pas -> is_Some (cf !! key) ->
  exists tot' pas',
    Filter.iadd tot key count = inr tot' /\
    Filter.iadd pas key count = inr pas' /\
    tallies R cf tot' pas'.
Proof.
  intros Hinv Hkey. destruct (Hinv key Hkey) as (a & b & Ha & Hb & Hab).
  exists (<[key := b + count]> tot), (<[key := a + count]> pas).
  split; [apply iadd_inr; eauto|]. split; [apply iadd_inr; eauto|].
  intros k Hk. destruct (decide (k = key)) as [->|Hne].
  - exists (a + count), (b + count). rewrite !lookup_insert_eq. auto.
  - rewrite !lookup_insert_ne by congruence. auto.
Qed.

Lemma tallies_total cf tot pas key g event :
  tallies R cf tot pas -> is_Some (cf !! key) -> weight_ok g ->
  exists tot',
    Filter.iadd tot key (g event) = inr tot' /\ tallies R cf tot' pas.
Proof.
  intros Hinv Hkey Hg. destruct (Hinv key Hkey) as (a & b & Ha & Hb & Hab).
  exists (<[key := b + g event]> tot).
  split; [apply iadd_inr; eauto|].
  intros k Hk. destruct (decide (k = key)) as [->|Hne].
  - exists a, (b + g event). rewrite lookup_insert_eq. auto.
  - rewrite lookup_insert_ne by congruence. auto.
Qed.

Lemma count_passed_tallies cf items event tot pas :
  tallies R cf tot pas ->
  (forall k g, (k, g) ∈ items -> is_Some (cf !! k)) ->
  exists tot' pas',
    Filter.count_passed items event (tot, pas) = inr (tot', pas') /\
    tallies R cf tot' pas'.
Proof.
  revert tot pas. induction items as [|[k g] items IH]; intros tot pas Hinv Hitems.
  - exists tot, pas. auto.
  - destruct (tallies_both cf tot pas k (g event) Hinv) as (tot1 & pas1 & Ht & Hp & Hinv1).
    { apply (Hitems k g), list_elem_of_here. }
    destruct (IH tot1 pas1 Hinv1) as (tot' & pas' & Hrun & Hinv').
    { intros k' g' Hin. apply (Hitems k' g'). by apply list_elem_of_further. }
    exists tot', pas'. split; [|exact Hinv'].
    simpl. rewrite Ht. simpl. rewrite Hp. simpl. exact Hrun.
Qed.

Lemma count_failed_tallies cf items event tot pas :
  tallies R cf tot pas ->
  (forall k g, (k, g) ∈ items -> is_Some (cf !! k) /\ weight_ok g) ->
  exists tot',
    Filter.count_failed items event tot = inr tot' /\
    tallies R cf tot' pas.
Proof.
  revert tot. induction items as [|[k g] items IH]; intros tot Hinv Hitems.
  - exists tot. auto.
  - destruct (Hitems k g (list_elem_of_here _ _)) as [Hk Hg].
    destruct (tallies_total cf tot pas k g event Hinv Hk Hg) as (tot1 & Ht & Hinv1).
    destruct (IH tot1 Hinv1) as (tot' & Hrun & Hinv').
    { intros k' g' Hin. apply (Hitems k' g'). by apply list_elem_of_further. }
    exists tot'. split; [|exact Hinv'].
    simpl. rewrite Ht. simpl. exact Hrun.
Qed.

Lemma init_tallies cls hooks passthrough name
    (count_funcs : option (gmap string (Event -> Z))) :
  tallies_of R
    (Filter.__init__ (World:=World) cls hooks passthrough name count_funcs).
Proof.
  unfold tallies_of, tallies. simpl. intros k [g Hk].
  exists 0, 0. rewrite !zero_counts_lookup.
  rewrite decide_True; [auto|].
  apply list_elem_of_fmap. exists (k, g). split; [reflexivity|].
  by apply elem_of_map_to_list.
Qed.

Lemma passed_tallies f event :
  tallies_of R f ->
  exists f', Filter.passed f event = inr f' /\
    tallies_of R f' /\
    Filter.count_funcs f' = Filter.count_funcs f /\
    Filter.total f' = Filter.total f + 1 /\
    Filter.passing f' = Filter.passing f + 1.
Proof.
  intros Hinv. unfold Filter.passed.
  destruct (count_passed_tallies (Filter.count_funcs f)
              (map_to_list (Filter.count_funcs f)) event _ _ Hinv)
    as (tot' & pas' & -> & Hinv').
  { intros k g Hin. apply elem_of_map_to_list in Hin. eauto. }
  simpl. eexists. split; [reflexivity|]. simpl. auto.
Qed.

Lemma failed_tallies f event :
  tallies_of R f -> weights_ok weight_ok f ->
  exists f', Filter.failed f event = inr f' /\
    tallies_of R f' /\
    Filter.count_funcs f' = Filter.count_funcs f /\
    Filter.total f' = Filter.total f + 1 /\
    Filter.passing f' = Filter.passing f.
Proof.
  intros Hinv Hw. unfold Filter.failed.
  destruct (count_failed_tallies (Filter.count_funcs f)
              (map_to_list (Filter.count_funcs f)) event _ _ Hinv)
    as (tot' & -> & Hinv').
  { intros k g Hin. apply elem_of_map_to_list in Hin. split; eauto. }
  simpl. eexists. split; [reflexivity|]. simpl. auto.
Qed.

End tally_lemmas.

(** * What one operation does to the counters *)

Section inversion.
Context {Event World : Type}.
Implicit Types f left right : Filter.t Event World.
Implicit Types event : Event.

Lemma passed_inr f event f' :
  Filter.passed f event = inr f' ->
  Filter.total f' = Filter.total f + 1 /\
  Filter.passing f' = Filter.passing f + 1 /\
  Filter.count_funcs f' = Filter.count_funcs f /\
  Filter.details f' = Filter.details f /\
  Filter.was_passed f' = true.
Proof.
  unfold Filter.passed. intros (tp & _ & [= <-])%bind_inr. simpl. auto.
Qed.

Lemma failed_inr f event f' :
  Filter.failed f event = inr f' ->
  Filter.total f' = Filter.total f + 1 /\
  Filter.passing f' = Filter.passing f /\
  Filter.count_funcs f' = Filter.count_funcs f /\
  Filter.count_funcs_passing f' = Filter.count_funcs_passing f /\
  Filter.details f' = Filter.details f /\
  Filter.was_passed f' = false.
Proof.
  unfold Filter.failed. intros (tot & _ & [= <-])%bind_inr. simpl.
  repeat split; reflexivity.
Qed.

Lemma event_call_inr (self : EventFilter.t Event World) event w ok self' w' :
  EventFilter.__call__ self event w = inr (ok, self', w') ->
  (ok = false /\ self' = self /\ w' = w) \/
  (ok = true /\ Filter.passed (EventFilter.base self) event
                = inr (EventFilter.base self')) \/
  (ok = false /\ Filter.failed (EventFilter.base self) event
                 = inr (EventFilter.base self')).
Proof.
  unfold EventFilter.__call__.
  destruct (Filter.passthrough (EventFilter.base self)).
  - intros (b & Hb & [= <- <- <-])%bind_inr. right; left. auto.
  - destruct (EventFilter.passes self event) as [[|]|].
    + intros (b & Hb & [= <- <- <-])%bind_inr. right; left. auto.
    + intros (b & Hb & [= <- <- <-])%bind_inr. right; right. auto.
    + intros [= <- <- <-]. left. auto.
Qed.

Lemma object_call_counters {Obj : Type}
    (self : ObjectFilter.t Event World Obj) event collection :
  let b := ObjectFilter.base self in
  let b' := ObjectFilter.base (ObjectFilter.__call__ self event collection).2 in
  let retained := (ObjectFilter.__call__ self event collection).1 in
  retained = (if Filter.passthrough b then collection
              else ObjectFilter.filtered self event collection) /\
  Filter.total b' = Filter.total b +
    (if ObjectFilter.count_events self then 1 else ObjectFilter.len collection) /\
  Filter.passing b' = Filter.passing b +
    (if ObjectFilter.count_events self
     then (if 0 <? ObjectFilter.len retained then 1 else 0)
     else ObjectFilter.len retained) /\
  Filter.count_funcs b' = Filter.count_funcs b /\
  Filter.count_funcs_total b' = Filter.count_funcs_total b /\
  Filter.count_funcs_passing b' = Filter.count_funcs_passing b /\
  Filter.details b' = Filter.details b /\
  ObjectFilter.count_events (ObjectFilter.__call__ self event collection).2
  = ObjectFilter.count_events self.
Proof.
  unfold ObjectFilter.__call__, ObjectFilter.len.
  destruct (Filter.passthrough (ObjectFilter.base self)); simpl;
    destruct (0 <? _) eqn:Hlen; simpl;
    destruct (ObjectFilter.count_events self); simpl;
    repeat split; rewrite ?Hlen; try reflexivity;
    apply Z.ltb_ge in Hlen; lia.
Qed.

End inversion.

(** * Adding two filters *)

Section add_lemmas.
Context {Event World : Type}.
Implicit Types f left right : Filter.t Event World.
Implicit Types items pairs : list (string * Z).
Implicit Types L R : gmap string Z.

Lemma new_fields :
  Filter.new (Event:=Event) (World:=World) =
  {| Filter.name := "Filter"; Filter.total := 0; Filter.passing := 0;
     Filter.count_funcs := ∅; Filter.count_funcs_total := ∅;
     Filter.count_funcs_passing := ∅; Filter.details := ∅;
     Filter.hooks := None; Filter.passthrough := false;
     Filter.was_passed := false |}.
Proof.
  unfold Filter.new, Filter.__init__. rewrite map_to_list_empty. reflexivity.
Qed.

Lemma sum_details_inr items R pairs :
  Filter.sum_details items R = inr pairs ->
  pairs.*1 = items.*1 /\
  forall k v, (k, v) ∈ pairs <->
    exists l r, (k, l) ∈ items /\ R !! k = Some r /\ v = l + r.
Proof.
  revert pairs. induction items as [|[k0 l0] items IH]; intros pairs; simpl.
  - intros [= <-]. split; [reflexivity|]. intros k v. split.
    + intros []%elem_of_nil.
    + intros (l & r & []%elem_of_nil & _).
  - destruct (R !! k0) as [r0|] eqn:Hr0; [|discriminate].
    intros (rest & Hrest & ->)%fmap_inr.
    destruct (IH rest Hrest) as [Hfst Hmem]. split.
    + rewrite !fmap_cons, Hfst. reflexivity.
    + intros k v. rewrite elem_of_cons, Hmem. split.
      * intros [[= -> ->]|(l & r & Hin & Hr & ->)].
        -- exists l0, r0. split; [apply list_elem_of_here | auto].
        -- exists l, r. split; [by apply list_elem_of_further | auto].
      * intros (l & r & [[= -> ->]|Hin]%elem_of_cons & Hr & ->).
        -- left. congruence.
        -- right. eauto.
Qed.

Lemma sum_details_outcome items R :
  (exists pairs, Filter.sum_details items R = inr pairs /\
     forall k l, (k, l) ∈ items -> is_Some (R !! k)) \/
  (exists k l, (k, l) ∈ items /\ R !! k = None /\
     Filter.sum_details items R = inl (KeyError k)).
Proof.
  induction items as [|[k0 l0] items IH]; simpl.
  - left. exists []. split; [reflexivity|]. intros k l []%elem_of_nil.
  - destruct (R !! k0) as [r0|] eqn:Hr0.
    + destruct IH as [(pairs & -> & Hall)|(k & l & Hin & Hk & ->)].
      * left. eexists. split; [reflexivity|].
        intros k l [[= -> ->]|Hin]%elem_of_cons; eauto.
      * right. exists k, l. split; [by apply list_elem_of_further | auto].
    + right. exists k0, l0. split; [apply list_elem_of_here | auto].
Qed.

Lemma sum_details_map L R pairs :
  Filter.sum_details (map_to_list L) R = inr pairs ->
  list_to_map pairs = map_zip_with Z.add L R.
Proof.
  intros [Hfst Hmem]%sum_details_inr.
  apply map_eq. intros k. apply option_eq. intros v.
  rewrite <- elem_of_list_to_map
    by (rewrite Hfst; apply NoDup_fst_map_to_list).
  rewrite Hmem, map_lookup_zip_with_Some.
  split; intros (l & r & Hl & Hr & ->); exists l, r.
  - apply elem_of_map_to_list in Hl. auto.
  - split; [by apply elem_of_map_to_list | auto].
Qed.

Lemma add_mismatch left right :
  Filter.name left <> Filter.name right ->
  Filter.add left right
  = inl (ValueError "Attemping to add filters with different names").
Proof. intros Hne. unfold Filter.add. by rewrite bool_decide_eq_true_2. Qed.

Lemma add_same_name left right :
  Filter.name left = Filter.name right ->
  (dom (Filter.details left) ⊆ dom (Filter.details right) /\
   Filter.add left right = inr (sum_of left right)) \/
  (exists k, k ∈ dom (Filter.details left) /\
             (k ∉ dom (Filter.details right)) /\
             Filter.add left right = inl (KeyError k)).
Proof.
  intros Hname. unfold Filter.add. rewrite new_fields.
  rewrite bool_decide_eq_false_2 by (intros Hne; exact (Hne Hname)).
  destruct (sum_details_outcome (map_to_list (Filter.details left))
              (Filter.details right))
    as [(pairs & Hrun & Hall)|(k & l & Hin & Hk & Hrun)].
  - left. split.
    + intros k [l Hl]%elem_of_dom. apply elem_of_dom, (Hall k l).
      by apply elem_of_map_to_list.
    + rewrite Hrun. simpl. rewrite (sum_details_map _ _ _ Hrun).
      reflexivity.
  - right. exists k. split; [|split].
    + apply elem_of_dom. exists l. by apply elem_of_map_to_list.
    + by apply not_elem_of_dom.
    + rewrite Hrun. reflexivity.
Qed.

Lemma add_inr left right f :
  Filter.add left right = inr f <->
  Filter.name left = Filter.name right /\
  dom (Filter.details left) ⊆ dom (Filter.details right) /\
  f = sum_of left right.
Proof.
  split.
  - intros Hadd. destruct (decide (Filter.name left = Filter.name right)) as [Hname|Hne].
    + destruct (add_same_name left right Hname) as [[Hdom Hsum]|(k & _ & _ & Herr)];
        [|congruence].
      split; [exact Hname|]. split; [exact Hdom | congruence].
    + rewrite add_mismatch in Hadd by exact Hne. discriminate.
  - intros (Hname & Hdom & ->).
    destruct (add_same_name left right Hname) as [[_ Hsum]|(k & Hk & Hnk & _)];
      [exact Hsum | exfalso; apply Hnk, Hdom, Hk].
Qed.

End add_lemmas.

(** * Properties of [Filter.add] *)

(** C3, as stated, fails: two filters of one name need not add up to a
    filter.  When a [details] key of the left operand is missing from the
    right operand, [add] raises [KeyError]. *)
Lemma C3_counterexample :
  ~ (forall left right : Filter.t unit unit,
       Filter.name left = Filter.name right ->
       exists f, Filter.add left right = inr f /\
         Filter.name f = Filter.name left /\
         Filter.total f = Filter.total left + Filter.total right /\
         Filter.passing f = Filter.passing left + Filter.passing right).
Proof.
  intros Hclaim.
  destruct (Hclaim Scenario.Dx Scenario.D0 eq_refl) as (f & Hadd & _).
  vm_compute in Hadd. discriminate Hadd.
Qed.

(** C3 (amended): [add] raises the name-mismatch [ValueError] exactly when
    the names differ; when the names are equal and every [details] key of
    [left] is a key of [right], it returns a filter named as [left] whose
    [total] and [passing] are the sums of the operands'. *)
Theorem C3_add_counters {Event World : Type} (left right : Filter.t Event World) :
  ((exists msg, Filter.add left right = inl (ValueError msg)) <->
   Filter.name left <> Filter.name right) /\
  (Filter.name left = Filter.name right ->
   dom (Filter.details left) ⊆ dom (Filter.details right) ->
   exists f, Filter.add left right = inr f /\
     Filter.name f = Filter.name left /\
     Filter.total f = Filter.total left + Filter.total right /\
     Filter.passing f = Filter.passing left + Filter.passing right).
Proof.
  split.
  - split.
    + intros [msg Herr] Hname.
      destruct (add_same_name left right Hname) as [[_ Hsum]|(k & _ & _ & Hkey)];
        congruence.
    + intros Hne. eexists. by apply add_mismatch.
  - intros Hname Hdom. exists (sum_of left right).
    split; [by apply add_inr | auto].
Qed.

(** The scenario of the specification: "A" with 10/7 plus "A" with 5/3
    is "A" with 15/10. *)
Lemma C3_witness :
  exists f, Filter.add Scenario.A1 Scenario.A2 = inr f /\
    Filter.name f = "A" /\ Filter.total f = 15 /\ Filter.passing f = 10.
Proof.
  destruct (C3_add_counters Scenario.A1 Scenario.A2) as [_ Hsum].
  destruct (Hsum eq_refl) as (f & Hadd & Hn & Ht & Hp).
  - apply (bool_decide_unpack _). vm_compute. exact I.
  - exists f. split; [exact Hadd|]. rewrite Hn, Ht, Hp. auto.
Defined.

(** C5: for two filters of one name, [add] raises [KeyError] when some
    [details] key of [left] is missing from [right]; otherwise it returns
    a filter whose [details] has exactly the keys of [left], each mapped
    to the sum of the operands' values, so a key found only in [right] is
    dropped. *)
Theorem C5_add_details {Event World : Type} (left right : Filter.t Event World) :
  Filter.name left = Filter.name right ->
  ((exists k, k ∈ dom (Filter.details left) /\
              (k ∉ dom (Filter.details right))) ->
   exists k, k ∈ dom (Filter.details left) /\
             (k ∉ dom (Filter.details right)) /\
             Filter.add left right = inl (KeyError k)) /\
  (dom (Filter.details left) ⊆ dom (Filter.details right) ->
   exists f, Filter.add left right = inr f /\
     dom (Filter.details f) = dom (Filter.details left) /\
     (forall k, k ∈ dom (Filter.details right) ->
                k ∉ dom (Filter.details left) ->
                Filter.details f !! k = None) /\
     (forall k l r, Filter.details left !! k = Some l ->
                    Filter.details right !! k = Some r ->
                    Filter.details f !! k = Some (l + r))).
Proof.
  intros Hname. split.
  - intros (k & Hk & Hnk).
    destruct (add_same_name left right Hname) as [[Hdom _]|Hkey];
      [exfalso; apply Hnk, Hdom, Hk | exact Hkey].
  - intros Hdom. exists (sum_of left right).
    split; [by apply add_inr|]. simpl. split; [|split].
    + rewrite dom_map_zip_with_L. by apply subseteq_intersection_1_L.
    + intros k _ Hk%not_elem_of_dom.
      rewrite map_lookup_zip_with, Hk. reflexivity.
    + intros k l r Hl Hr. rewrite map_lookup_zip_with, Hl, Hr. reflexivity.
Qed.

(** With [details] {x:1} on the left: {x:2, y:5} on the right gives {x:3}
    and drops y, and an empty right operand raises [KeyError]. *)
Lemma C5_witness :
  (exists f, Filter.add Scenario.Dx Scenario.Dxy = inr f /\
             Filter.details f !! "x" = Some 3 /\
             Filter.details f !! "y" = None) /\
  (exists k, Filter.add Scenario.Dx Scenario.D0 = inl (KeyError k)).
Proof.
  split.
  - destruct (C5_add_details Scenario.Dx Scenario.Dxy eq_refl) as [_ Hsum].
    destruct Hsum as (f & Hadd & _ & Hdrop & Hval).
    + apply (bool_decide_unpack _). vm_compute. exact I.
    + exists f. split; [exact Hadd|]. split.
      * apply (Hval "x" 1 2); reflexivity.
      * apply Hdrop; apply (bool_decide_unpack _); vm_compute; exact I.
  - destruct (C5_add_details Scenario.Dx Scenario.D0 eq_refl) as [Hkey _].
    destruct Hkey as (k & _ & _ & Herr).
    + exists "x". split; apply (bool_decide_unpack _); vm_compute; exact I.
    + exists k. exact Herr.
Defined.

(** C10: for two filters of one name, the filter [add] returns has no
    count functions and empty weighted tallies, whatever the operands had
    tallied, and its serialised state holds the two tallies as empty
    mappings; [add] does return a filter when every [details] key of
    [left] is a key of [right]. *)
Theorem C10_add_drops_tallies {Event World : Type}
    (left right : Filter.t Event World) :
  Filter.name left = Filter.name right ->
  (forall f, Filter.add left right = inr f ->
     Filter.count_funcs f = ∅ /\
     Filter.count_funcs_total f = ∅ /\
     Filter.count_funcs_passing f = ∅ /\
     Filter.__getstate__ f !! "count_funcs_total" = Some (VMap ∅) /\
     Filter.__getstate__ f !! "count_funcs_passing" = Some (VMap ∅)) /\
  (dom (Filter.details left) ⊆ dom (Filter.details right) ->
   exists f, Filter.add left right = inr f).
Proof.
  intros Hname. split.
  - intros f (_ & _ & ->)%add_inr. repeat split; reflexivity.
  - intros Hdom. exists (sum_of left right). by apply add_inr.
Qed.

(** A filter holding the tally w = 3 added to itself: [add] returns a
    filter, and the tally is gone. *)
Lemma C10_witness :
  Filter.count_funcs_total Scenario.W !! "w" = Some 3 /\
  exists f, Filter.add Scenario.W Scenario.W = inr f /\
    Filter.total f = 2 /\
    Filter.count_funcs_total f = ∅ /\ Filter.count_funcs_passing f = ∅.
Proof.
  split; [reflexivity|].
  destruct (C10_add_drops_tallies Scenario.W Scenario.W eq_refl)
    as [Hempty Hreturns].
  destruct Hreturns as [f Hadd].
  - apply (bool_decide_unpack _). vm_compute. exact I.
  - destruct (Hempty f Hadd) as (_ & Ht & Hp & _).
    exists f. split; [exact Hadd|]. split; [|split; [exact Ht | exact Hp]].
    apply add_inr in Hadd as (_ & _ & ->). reflexivity.
Defined.

(** * Serialisation *)

(** C2: the serialised state of a filter has exactly the six keys [name],
    [total], [passing], [details], [count_funcs_total] and
    [count_funcs_passing] (no [count_funcs]), and setting it on any filter,
    a new one in particular, gives back these six attributes; the count
    functions of the receiving filter stay as they were. *)
Theorem C2_state_roundtrip {Event World : Type} (self f : Filter.t Event World) :
  dom (Filter.__getstate__ f) = state_keys /\
  Filter.__getstate__ f !! "count_funcs" = None /\
  exists f', Filter.__setstate__ self (Filter.__getstate__ f) = inr f' /\
    Filter.name f' = Filter.name f /\
    Filter.total f' = Filter.total f /\
    Filter.passing f' = Filter.passing f /\
    Filter.details f' = Filter.details f /\
    Filter.count_funcs_total f' = Filter.count_funcs_total f /\
    Filter.count_funcs_passing f' = Filter.count_funcs_passing f /\
    Filter.count_funcs f' = Filter.count_funcs self.
Proof.
  split; [|split].
  - reflexivity.
  - reflexivity.
  - eexists. split; [reflexivity|]. simpl. repeat split; reflexivity.
Qed.

(** * Counting *)

Section counting.
Context {Event World : Type}.
Implicit Types f : Filter.t Event World.

Lemma do_calls_counts f (cs : list (call Event)) :
  tallies_of (fun _ _ => True) f ->
  exists f', do_calls f cs = inr f' /\
    Filter.total f' = Filter.total f + Z.of_nat (length cs) /\
    Filter.passing f' = Filter.passing f + Z.of_nat (n_passed cs).
Proof.
  revert f. induction cs as [|c cs IH]; intros f Hinv.
  - exists f. simpl. split; [reflexivity|]. unfold n_passed. simpl. lia.
  - assert (exists f1, do_call f c = inr f1 /\
              tallies_of (fun _ _ => True) f1 /\
              Filter.total f1 = Filter.total f + 1 /\
              Filter.passing f1
              = Filter.passing f + (if is_passed c then 1 else 0))
      as (f1 & Hc & Hinv1 & Ht1 & Hp1).
    { destruct c as [event|event]; simpl.
      - destruct (passed_tallies (fun _ _ => True) (fun _ _ _ _ => I)
                    f event Hinv) as (f1 & H1 & Hinv1 & _ & Ht & Hp).
        eauto 10.
      - destruct (failed_tallies (fun _ _ => True) any
                    (fun _ _ _ _ _ _ => I) f event Hinv)
          as (f1 & H1 & Hinv1 & _ & Ht & Hp).
        { intros k g _. exact I. }
        exists f1. rewrite Z.add_0_r. auto. }
    destruct (IH f1 Hinv1) as (f' & Hrun & Ht & Hp).
    exists f'. split; [|split].
    + cbn [do_calls]. rewrite Hc. exact Hrun.
    + rewrite Ht, Ht1. cbn [length]. lia.
    + rewrite Hp, Hp1. unfold n_passed. cbn [List.filter].
      destruct (is_passed c); cbn [length]; lia.
Qed.

Lemma n_passed_le (cs : list (call Event)) : (n_passed cs <= length cs)%nat.
Proof. unfold n_passed. apply List.filter_length_le. Qed.

Context {Obj : Type}.

Lemma reachable_le f :
  reachable (Obj:=Obj) any shrinking f ->
  Filter.passing f <= Filter.total f.
Proof.
  induction 1 as [cls hooks pt name cfs _
                 | f event f' _ IH Hcall
                 | f event f' _ IH Hcall
                 | f passes event w ok ef' w' _ IH Hcall
                 | f ce flt event collection retained of' _ IH Hflt Hcall
                 | left right f _ IHl _ IHr Hadd].
  - simpl. lia.
  - apply passed_inr in Hcall as (-> & -> & _). lia.
  - apply failed_inr in Hcall as (-> & -> & _). lia.
  - apply event_call_inr in Hcall as [(_ & -> & _)|[[_ Hcall]|[_ Hcall]]];
      simpl in *.
    + exact IH.
    + apply passed_inr in Hcall as (-> & -> & _). lia.
    + apply failed_inr in Hcall as (-> & -> & _). lia.
  - pose proof (object_call_counters (ObjectFilter.mk f ce flt)
                  event collection) as Hobj.
    rewrite Hcall in Hobj. cbn [fst snd ObjectFilter.base
      ObjectFilter.count_events ObjectFilter.filtered] in Hobj.
    destruct Hobj as (Hret & -> & -> & _).
    assert (ObjectFilter.len retained <= ObjectFilter.len collection) as Hlen.
    { rewrite Hret. destruct (Filter.passthrough f); [lia|].
      unfold ObjectFilter.len. specialize (Hflt event collection). lia. }
    destruct ce; [destruct (0 <? _)|]; lia.
  - apply add_inr in Hadd as (_ & _ & ->). simpl. lia.
Qed.

Lemma reachable_counts f :
  reachable (Obj:=Obj) nonneg any f ->
  counts_ok f /\ weights_ok nonneg f.
Proof.
  assert (Hboth : forall a b c : Z, a <= b -> a + c <= b + c) by (intros; lia).
  assert (Htotal : forall (a b : Z) (g : Event -> Z) (event : Event),
             nonneg g -> a <= b -> a <= b + g event).
  { intros a b g event Hg Hab. specialize (Hg event). lia. }
  assert (Hpassed : forall f event f',
             counts_ok f /\ weights_ok nonneg f ->
             Filter.passed f event = inr f' ->
             counts_ok f' /\ weights_ok nonneg f').
  { intros g event g' [Hinv Hw] Hcall.
    destruct (passed_tallies Z.le Hboth g event Hinv)
      as (g'' & Hcall' & Hinv' & Hcf & _).
    assert (g' = g'') as -> by congruence.
    split; [exact Hinv'|]. unfold weights_ok. rewrite Hcf. exact Hw. }
  assert (Hfailed : forall f event f',
             counts_ok f /\ weights_ok nonneg f ->
             Filter.failed f event = inr f' ->
             counts_ok f' /\ weights_ok nonneg f').
  { intros g event g' [Hinv Hw] Hcall.
    destruct (failed_tallies Z.le nonneg Htotal g event Hinv Hw)
      as (g'' & Hcall' & Hinv' & Hcf & _).
    assert (g' = g'') as -> by congruence.
    split; [exact Hinv'|]. unfold weights_ok. rewrite Hcf. exact Hw. }
  induction 1 as [cls hooks pt name cfs Hcfs
                 | f event f' _ IH Hcall
                 | f event f' _ IH Hcall
                 | f passes event w ok ef' w' _ IH Hcall
                 | f ce flt event collection retained of' _ IH Hflt Hcall
                 | left right f _ IHl _ IHr Hadd].
  - split; [apply init_tallies; reflexivity|].
    intros k g Hk. simpl in Hk. destruct cfs as [cf|].
    + by apply (Hcfs cf k g).
    + by rewrite lookup_empty in Hk.
  - eauto.
  - eauto.
  - apply event_call_inr in Hcall as [(_ & -> & _)|[[_ Hcall]|[_ Hcall]]];
      simpl in *; eauto.
  - pose proof (object_call_counters (ObjectFilter.mk f ce flt)
                  event collection) as Hobj.
    rewrite Hcall in Hobj. cbn [fst snd ObjectFilter.base] in Hobj.
    destruct Hobj as (_ & _ & _ & Hcf & Hcft & Hcfp & _).
    unfold counts_ok, tallies_of, weights_ok.
    rewrite Hcf, Hcft, Hcfp. exact IH.
  - apply add_inr in Hadd as (_ & _ & ->). split.
    + intros k [g Hk]. simpl in Hk. by rewrite lookup_empty in Hk.
    + intros k g Hk. simpl in Hk. by rewrite lookup_empty in Hk.
Qed.

End counting.

(** C6: on a fresh filter, any sequence of [passed] and [failed] calls
    runs through, and afterwards [total] is the number of calls and
    [passing] the number of [passed] calls; hence [passing <= total]. *)
Theorem C6_fresh_counts {Event World : Type} cls hooks passthrough name
    count_funcs (cs : list (call Event)) :
  exists f' : Filter.t Event World,
    do_calls (Filter.__init__ cls hooks passthrough name count_funcs) cs
    = inr f' /\
    Filter.total f' = Z.of_nat (length cs) /\
    Filter.passing f' = Z.of_nat (n_passed cs) /\
    Filter.passing f' <= Filter.total f'.
Proof.
  destruct (do_calls_counts
              (Filter.__init__ cls hooks passthrough name count_funcs) cs)
    as (f' & Hrun & Ht & Hp).
  { apply init_tallies. exact I. }
  simpl in Ht, Hp. exists f'. split; [exact Hrun|].
  split; [exact Ht|]. split; [exact Hp|].
  rewrite Ht, Hp. pose proof (n_passed_le cs). lia.
Qed.

(** C1, as stated, fails twice over.  A count function that returns a
    negative weight drives [count_funcs_total] below
    [count_funcs_passing] on a [failed] call; and an object filter whose
    [filtered] returns more objects than it is given drives [passing]
    above [total]. *)
Lemma C1_counterexample :
  ~ (forall f : Filter.t unit unit,
       reachable (Obj:=unit) any any f -> counts_ok f) /\
  ~ (forall f : Filter.t unit unit,
       reachable (Obj:=unit) any any f ->
       Filter.passing f <= Filter.total f).
Proof.
  split; intros Hclaim.
  - assert (reachable (Obj:=unit) any any Scenario.neg_failed) as Hreach.
    { apply (reach_failed any any Scenario.neg ()).
      - apply reach_init. intros; exact I.
      - vm_compute. reflexivity. }
    destruct (Hclaim _ Hreach "w") as (a & b & Ha & Hb & Hab).
    { vm_compute. eexists. reflexivity. }
    vm_compute in Ha, Hb. injection Ha as <-. injection Hb as <-. lia.
  - pose (r := ObjectFilter.__call__ Scenario.growing () []).
    assert (reachable (Obj:=unit) any any (ObjectFilter.base r.2)) as Hreach.
    { apply (reach_object any any
               (ObjectFilter.base Scenario.growing) false
               (ObjectFilter.filtered Scenario.growing) () [] r.1).
      - apply reach_init. intros cf k g [=].
      - exact I.
      - reflexivity. }
    apply Hclaim in Hreach. vm_compute in Hreach. apply Hreach. reflexivity.
Qed.

(** C1 (amended): along every sequence of [passed], [failed],
    [EventFilter.__call__], [ObjectFilter.__call__] and [add] from freshly
    constructed filters, [passing <= total] holds as long as every
    [filtered] returns no more objects than it is given, and
    [count_funcs_passing[k] <= count_funcs_total[k]] holds for every
    registered label [k] as long as every count function returns
    non-negative weights. *)
Theorem C1_invariant {Event World Obj : Type} (f : Filter.t Event World) :
  (reachable (Obj:=Obj) any shrinking f ->
   Filter.passing f <= Filter.total f) /\
  (reachable (Obj:=Obj) nonneg any f -> counts_ok f).
Proof.
  split.
  - apply reachable_le.
  - intros Hreach. by apply reachable_counts in Hreach as [Hinv _].
Qed.

(** A reachable filter with a positive weight satisfies both
    inequalities. *)
Lemma C1_witness :
  Filter.passing Scenario.pos_passed <= Filter.total Scenario.pos_passed /\
  counts_ok Scenario.pos_passed.
Proof.
  assert (forall (weight_ok : (unit -> Z) -> Prop) filtered_ok,
            weight_ok (fun _ => 3) ->
            reachable (Obj:=unit) weight_ok filtered_ok Scenario.pos_passed)
    as Hreach.
  { intros weight_ok filtered_ok Hw.
    apply (reach_passed weight_ok filtered_ok Scenario.pos ()).
    - apply reach_init. intros cf k g [= <-] Hk.
      destruct (decide (k = "w")) as [->|Hne].
      + rewrite lookup_singleton_eq in Hk. by injection Hk as <-.
      + by rewrite lookup_singleton_ne in Hk.
    - vm_compute. reflexivity. }
  destruct (C1_invariant (Obj:=unit) Scenario.pos_passed) as [Hle Hcounts].
  split.
  - apply Hle, Hreach. exact I.
  - apply Hcounts, Hreach. intros event. lia.
Defined.

(** * Evaluating event filters *)

Lemma run_hooks_foldl {World : Type} (hooks : list (World -> World)) (w : World) :
  EventFilter.run_hooks (Some hooks) w = foldl (fun w hook => hook w) w hooks.
Proof. destruct hooks; reflexivity. Qed.

(** C7: a filter that is not in passthrough mode, called on an event,
    - returns false and stays as it was, counters and details included,
      when [passes] returns [None];
    - records [failed(event)] and returns false when [passes] returns a
      false value;
    - runs its hooks, records [passed(event)] and returns true when
      [passes] returns a true value. *)
Theorem C7_event_call {Event World : Type}
    (self : EventFilter.t Event World) (event : Event) (w : World) :
  Filter.passthrough (EventFilter.base self) = false ->
  (EventFilter.passes self event = None ->
   EventFilter.__call__ self event w = inr (false, self, w)) /\
  (EventFilter.passes self event = Some false ->
   EventFilter.__call__ self event w =
   (fun b => (false, EventFilter.mk b (EventFilter.passes self), w))
     <$> Filter.failed (EventFilter.base self) event) /\
  (EventFilter.passes self event = Some true ->
   EventFilter.__call__ self event w =
   (fun b => (true, EventFilter.mk b (EventFilter.passes self),
              EventFilter.run_hooks (Filter.hooks (EventFilter.base self)) w))
     <$> Filter.passed (EventFilter.base self) event).
Proof.
  intros Hpt. unfold EventFilter.__call__. rewrite Hpt.
  split; [|split]; intros ->.
  - reflexivity.
  - destruct (Filter.failed _ _); reflexivity.
  - destruct (Filter.passed _ _); reflexivity.
Qed.

(** The filter [picky] on events 0, 1 and 2, with the hook counter at 5. *)
Lemma C7_witness :
  EventFilter.__call__ Scenario.picky 0%nat 5%nat
  = inr (false, Scenario.picky, 5%nat) /\
  (exists f', EventFilter.__call__ Scenario.picky 1%nat 5%nat
              = inr (false, f', 5%nat) /\
     Filter.total (EventFilter.base f') = 1 /\
     Filter.passing (EventFilter.base f') = 0) /\
  (exists f', EventFilter.__call__ Scenario.picky 2%nat 5%nat
              = inr (true, f', 6%nat) /\
     Filter.total (EventFilter.base f') = 1 /\
     Filter.passing (EventFilter.base f') = 1).
Proof.
  split; [|split].
  - destruct (C7_event_call Scenario.picky 0%nat 5%nat eq_refl) as (H & _ & _).
    exact (H eq_refl).
  - destruct (C7_event_call Scenario.picky 1%nat 5%nat eq_refl) as (_ & H & _).
    eexists. split; [rewrite (H eq_refl); reflexivity|]. split; reflexivity.
  - destruct (C7_event_call Scenario.picky 2%nat 5%nat eq_refl) as (_ & _ & H).
    eexists. split; [rewrite (H eq_refl); reflexivity|]. split; reflexivity.
Defined.

Section event_list.
Context {Event World : Type}.
Implicit Types self pre post : EventFilterList.t Event World.
Implicit Types filter : EventFilter.t Event World.

Lemma list_call_cons filter self event w :
  EventFilterList.__call__ (filter :: self) event w =
  match EventFilter.__call__ filter event w with
  | inl e => inl e
  | inr (false, filter', w') => inr (false, filter' :: self, w')
  | inr (true, filter', w') =>
      match EventFilterList.__call__ self event w' with
      | inl e => inl e
      | inr (ok, self', w'') => inr (ok, filter' :: self', w'')
      end
  end.
Proof.
  cbn [EventFilterList.__call__].
  destruct (EventFilter.__call__ filter event w) as [e|[[[|] filter'] w']];
    simpl; [reflexivity| |reflexivity].
  destruct (EventFilterList.__call__ self event w') as [e|[[ok self'] w'']];
    reflexivity.
Qed.

Lemma list_call_stop pre filter post event w pre' w1 filter' w2 :
  EventFilterList.__call__ pre event w = inr (true, pre', w1) ->
  EventFilter.__call__ filter event w1 = inr (false, filter', w2) ->
  EventFilterList.__call__ (pre ++ filter :: post) event w
  = inr (false, pre' ++ filter' :: post, w2).
Proof.
  revert w pre'. induction pre as [|f0 pre IH]; intros w pre' Hpre Hstop.
  - injection Hpre as <- <-. simpl app. rewrite list_call_cons, Hstop.
    reflexivity.
  - rewrite list_call_cons in Hpre. simpl app. rewrite list_call_cons.
    destruct (EventFilter.__call__ f0 event w) as [e|[[[|] f0'] w0]];
      [discriminate| |discriminate].
    destruct (EventFilterList.__call__ pre event w0)
      as [e|[[ok pre0] w0']] eqn:Hrest; [discriminate|].
    injection Hpre as -> <- ->.
    rewrite (IH w0 pre0 Hrest Hstop). reflexivity.
Qed.

Lemma list_call_continue self event w :
  (forall filter w0, filter ∈ self ->
     exists filter' w1,
       EventFilter.__call__ filter event w0 = inr (true, filter', w1)) ->
  exists self' w',
    EventFilterList.__call__ self event w = inr (true, self', w') /\
    Forall2 (fun filter filter' => exists w0 w1,
               EventFilter.__call__ filter event w0 = inr (true, filter', w1))
            self self'.
Proof.
  revert w. induction self as [|f0 self IH]; intros w Hall.
  - exists [], w. split; [reflexivity | constructor].
  - destruct (Hall f0 w (list_elem_of_here _ _)) as (f0' & w0 & Hf0).
    destruct (IH w0) as (self' & w' & Hrest & Heach).
    { intros filter w1 Hin. apply Hall. by apply list_elem_of_further. }
    exists (f0' :: self'), w'. split.
    + rewrite list_call_cons, Hf0, Hrest. reflexivity.
    + constructor; eauto.
Qed.

End event_list.

(** C8: an [EventFilterList] runs its filters in order.  When the filters
    before some filter all return true and that filter returns false, the
    call returns false, and the filters after it are left exactly as they
    were; when every filter returns true, the call returns true. *)
Theorem C8_short_circuit {Event World : Type}
    (self : EventFilterList.t Event World) (event : Event) (w : World) :
  (forall pre filter post pre' w1 filter' w2,
     self = pre ++ filter :: post ->
     EventFilterList.__call__ pre event w = inr (true, pre', w1) ->
     EventFilter.__call__ filter event w1 = inr (false, filter', w2) ->
     EventFilterList.__call__ self event w
     = inr (false, pre' ++ filter' :: post, w2)) /\
  ((forall filter w0, filter ∈ self ->
      exists filter' w1,
        EventFilter.__call__ filter event w0 = inr (true, filter', w1)) ->
   exists self' w',
     EventFilterList.__call__ self event w = inr (true, self', w') /\
     Forall2 (fun filter filter' => exists w0 w1,
                EventFilter.__call__ filter event w0 = inr (true, filter', w1))
             self self').
Proof.
  split.
  - intros pre filter post pre' w1 filter' w2 -> Hpre Hstop.
    exact (list_call_stop pre filter post event w pre' w1 filter' w2 Hpre Hstop).
  - apply list_call_continue.
Qed.

(** The list [A accepts, B rejects, C accepts]: the call returns false,
    A and B have counted the event, and C is untouched. *)
Lemma C8_witness :
  exists A' B',
    EventFilterList.__call__
      [Scenario.accepting "A"; Scenario.rejecting "B"; Scenario.accepting "C"]
      7%nat 0%nat
    = inr (false, [A'; B'; Scenario.accepting "C"], 0%nat) /\
    Filter.total (EventFilter.base A') = 1 /\
    Filter.total (EventFilter.base B') = 1 /\
    Filter.total (EventFilter.base (Scenario.accepting "C")) = 0.
Proof.
  destruct (C8_short_circuit
              [Scenario.accepting "A"; Scenario.rejecting "B";
               Scenario.accepting "C"] 7%nat 0%nat) as [Hstop _].
  eexists _, _. split.
  - apply (Hstop [Scenario.accepting "A"] (Scenario.rejecting "B")
                 [Scenario.accepting "C"] [_] 0%nat _ 0%nat);
      reflexivity.
  - repeat split; reflexivity.
Defined.

(** * Evaluating object filters *)

(** C9: an object filter returns the retained collection, empty or not.
    Counting events, [total] grows by 1 and [passing] grows by 1 exactly
    when the retained collection is not empty.  Counting objects, [total]
    grows by the size of the collection it was given and [passing] by the
    size of the retained collection, when that is not empty. *)
Theorem C9_object_call {Event World Obj : Type}
    (self : ObjectFilter.t Event World Obj) (event : Event)
    (collection : list Obj) :
  let b := ObjectFilter.base self in
  let retained :=
    if Filter.passthrough b then collection
    else ObjectFilter.filtered self event collection in
  let out := ObjectFilter.__call__ self event collection in
  let b' := ObjectFilter.base out.2 in
  out.1 = retained /\
  ObjectFilter.count_events out.2 = ObjectFilter.count_events self /\
  (ObjectFilter.count_events self = true ->
   Filter.total b' = Filter.total b + 1 /\
   (Filter.passing b' = Filter.passing b + 1 <-> retained <> []) /\
   (retained = [] -> Filter.passing b' = Filter.passing b)) /\
  (ObjectFilter.count_events self = false ->
   Filter.total b' = Filter.total b + ObjectFilter.len collection /\
   (retained <> [] ->
    Filter.passing b' = Filter.passing b + ObjectFilter.len retained) /\
   (retained = [] -> Filter.passing b' = Filter.passing b)).
Proof.
  intros b retained out b'.
  destruct (object_call_counters self event collection)
    as (Hret & Ht & Hp & _ & _ & _ & _ & Hkeep).
  fold out in Hret, Ht, Hp. fold b' in Ht, Hp. fold b in Hret, Ht, Hp.
  fold retained in Hret. rewrite Hret in Hp.
  assert (retained <> [] <-> 0 < ObjectFilter.len retained) as Hne.
  { unfold ObjectFilter.len. destruct retained; simpl; split;
      (congruence || lia). }
  split; [exact Hret|].
  split; [exact Hkeep|].
  split; intros Hmode.
  - rewrite Hmode in Ht, Hp. split; [exact Ht|].
    destruct (Z.ltb_spec 0 (ObjectFilter.len retained)) as [Hlen|Hlen].
    + split; [tauto|]. intros Hnil. apply Hne in Hlen. contradiction.
    + split; [split; [lia|]|lia]. intros H%Hne. lia.
  - rewrite Hmode in Ht, Hp. split; [exact Ht|]. split; [intros; exact Hp|].
    intros Hnil. rewrite Hp, Hnil. unfold ObjectFilter.len. simpl. lia.
Qed.

(** Keeping the even numbers of [1; 2; 3; 4]: one event and one passing
    event in one mode, four objects and two passing objects in the other. *)
Lemma C9_witness :
  let events := ObjectFilter.__call__ (Scenario.evens true) () [1; 2; 3; 4]%nat in
  let objects := ObjectFilter.__call__ (Scenario.evens false) () [1; 2; 3; 4]%nat in
  events.1 = [2; 4]%nat /\
  Filter.total (ObjectFilter.base events.2) = 1 /\
  Filter.passing (ObjectFilter.base events.2) = 1 /\
  objects.1 = [2; 4]%nat /\
  Filter.total (ObjectFilter.base objects.2) = 4 /\
  Filter.passing (ObjectFilter.base objects.2) = 2.
Proof.
  intros events objects.
  destruct (C9_object_call (Scenario.evens true) () [1; 2; 3; 4]%nat)
    as (Hret1 & _ & Hev & _).
  destruct (Hev eq_refl) as (Ht1 & Hp1 & _).
  destruct (C9_object_call (Scenario.evens false) () [1; 2; 3; 4]%nat)
    as (Hret2 & _ & _ & Hob).
  destruct (Hob eq_refl) as (Ht2 & Hp2 & _).
  split; [exact Hret1|]. split; [exact Ht1|].
  split; [apply Hp1; discriminate|].
  split; [exact Hret2|]. split; [exact Ht2|].
  apply Hp2. discriminate.
Defined.

(** * Merging filter lists *)

Section merge_lemmas.
Context {Event World : Type}.
Implicit Types l : FilterList.t Event World.
Implicit Types x y h : FilterList.item Event World.

Lemma mergeable_merged x y :
  mergeable x y ->
  exists f g,
    FilterList.upgrade x = inr f /\ FilterList.upgrade y = inr g /\
    Filter.add f g = inr (sum_of f g).
Proof.
  intros (f & g & Hx & Hy & Hname & Hdom). exists f, g.
  split; [exact Hx|]. split; [exact Hy|]. by apply add_inr.
Qed.

Lemma merge_mergeable l1 l2 :
  Forall2 mergeable l1 l2 ->
  exists l, FilterList.merge l1 l2 = inr l /\ Forall3 merged l1 l2 l.
Proof.
  unfold FilterList.merge.
  induction 1 as [|x y l1 l2 Hxy _ (l & Hl & Hall)].
  - exists []. split; [reflexivity | constructor].
  - destruct (mergeable_merged x y Hxy) as (f & g & Hx & Hy & Hadd).
    exists (FilterList.IFilter (sum_of f g) :: l). split.
    + cbn [zip zip_with FilterList.merge_pairs]. rewrite Hx. simpl.
      rewrite Hy. simpl. unfold Filter.__add__. rewrite Hadd. simpl.
      rewrite Hl. reflexivity.
    + constructor; [|exact Hall]. exists f, g, (sum_of f g). auto.
Qed.

Lemma merged_length l1 l2 l :
  Forall3 merged l1 l2 l -> length l = length l1.
Proof. induction 1; simpl; congruence. Qed.

Lemma merged_last l1 l2 l x y :
  Forall3 merged l1 l2 l -> last l1 = Some x -> last l2 = Some y ->
  exists h, last l = Some h /\ merged x y h.
Proof.
  induction 1 as [|x0 y0 h0 l1 l2 l H0 Hall IH]; [discriminate|].
  destruct Hall as [|x1 y1 h1 l1 l2 l H1 Hall].
  - intros [= <-] [= <-]. exists h0. auto.
  - intros Hx Hy. apply IH; assumption.
Qed.

Lemma merged_total x y h f g :
  merged x y h ->
  FilterList.upgrade x = inr f -> FilterList.upgrade y = inr g ->
  FilterList.item_total h = inr (Filter.total f + Filter.total g) /\
  FilterList.item_passing h = inr (Filter.passing f + Filter.passing g).
Proof.
  intros (f' & g' & s & Hx & Hy & Hadd & ->) Hf Hg.
  assert (f' = f) as -> by congruence. assert (g' = g) as -> by congruence.
  apply add_inr in Hadd as (_ & _ & ->). split; reflexivity.
Qed.

End merge_lemmas.

(** C4, as stated, fails: two lists of same-named filters need not
    merge.  When a [details] key of a filter of the first list is missing
    from its partner in the second list, [merge] raises [KeyError]. *)
Lemma C4_counterexample :
  ~ (forall l1 l2 : FilterList.t unit unit,
       Forall2 same_named l1 l2 ->
       exists l, FilterList.merge l1 l2 = inr l /\
         length l = length l1 /\ Forall3 merged l1 l2 l).
Proof.
  intros Hclaim.
  destruct (Hclaim [FilterList.IFilter Scenario.Dx]
                   [FilterList.IFilter Scenario.D0]) as (l & Hmerge & _).
  - constructor; [|constructor].
    exists Scenario.Dx, Scenario.D0. repeat split; reflexivity.
  - vm_compute in Hmerge. discriminate Hmerge.
Qed.

(** C4 (amended): for two lists that hold, position by position, filters
    or serialised states of one name such that every [details] key of the
    first is a key of the second, [merge] returns a list of the same
    length that holds at each position the filter [add] returns for the
    upgraded pair; the [total] of the merged list is the sum of the
    [total]s of the first elements and its [passing] is the sum of the
    [passing]s of the last elements. *)
Theorem C4_merge {Event World : Type} (l1 l2 : FilterList.t Event World) :
  Forall2 mergeable l1 l2 ->
  exists l, FilterList.merge l1 l2 = inr l /\
    length l = length l1 /\ length l = length l2 /\
    Forall3 merged l1 l2 l /\
    (forall x y f g,
       head l1 = Some x -> head l2 = Some y ->
       FilterList.upgrade x = inr f -> FilterList.upgrade y = inr g ->
       FilterList.total l = inr (Filter.total f + Filter.total g)) /\
    (forall x y f g,
       last l1 = Some x -> last l2 = Some y ->
       FilterList.upgrade x = inr f -> FilterList.upgrade y = inr g ->
       FilterList.passing l = inr (Filter.passing f + Filter.passing g)).
Proof.
  intros Hall. destruct (merge_mergeable l1 l2 Hall) as (l & Hmerge & Hmerged).
  exists l. split; [exact Hmerge|].
  split; [by apply merged_length in Hmerged|].
  split; [apply merged_length in Hmerged; apply Forall2_length in Hall; congruence|].
  split; [exact Hmerged|]. split.
  - intros x y f g Hx Hy Hf Hg.
    destruct Hmerged as [|x0 y0 h0 l1 l2 l H0 _]; [discriminate|].
    injection Hx as ->. injection Hy as ->.
    apply (merged_total _ _ _ f g H0 Hf Hg).
  - intros x y f g Hx Hy Hf Hg.
    destruct (merged_last _ _ _ x y Hmerged Hx Hy) as (h & Hlast & Hh).
    unfold FilterList.passing. rewrite Hlast.
    apply (merged_total _ _ _ f g Hh Hf Hg).
Qed.

(** Two runs of three cuts merge into three cuts; the merged [total] is
    10 + 20 and the merged [passing] is 2 + 3. *)
Lemma C4_witness :
  exists l, FilterList.merge Scenario.run1 Scenario.run2 = inr l /\
    length l = 3%nat /\
    FilterList.total l = inr 30 /\ FilterList.passing l = inr 5.
Proof.
  destruct (C4_merge Scenario.run1 Scenario.run2)
    as (l & Hmerge & Hlen & _ & _ & Htotal & Hpassing).
  - repeat constructor.
    + eexists _, _. split; [reflexivity|]. split; [reflexivity|].
      split; [reflexivity|]. apply (bool_decide_unpack _). vm_compute. exact I.
    + eexists _, _. split; [reflexivity|]. split; [reflexivity|].
      split; [reflexivity|]. apply (bool_decide_unpack _). vm_compute. exact I.
    + eexists _, _. split; [reflexivity|]. split; [reflexivity|].
      split; [reflexivity|]. apply (bool_decide_unpack _). vm_compute. exact I.
  - exists l. split; [exact Hmerge|]. split; [exact Hlen|]. split.
    + exact (Htotal _ _ (Scenario.filter "cut1" 10 7 ∅)
                        (Scenario.filter "cut1" 20 12 ∅)
                        eq_refl eq_refl eq_refl eq_refl).
    + exact (Hpassing _ _ (Scenario.filter "cut3" 5 2 ∅)
                          (Scenario.filter "cut3" 6 3 ∅)
                          eq_refl eq_refl eq_refl eq_refl).
Defined.

(** * Construction of a filter *)

Section init_lemmas.
Context {Event World : Type}.
Implicit Types cf : gmap string (Event -> Z).

Lemma foldl_last_key (name : option string) (keys : list string) :
  foldl (fun _ k => Some k) name keys
  = match last keys with Some k => Some k | None => name end.
Proof.
  revert name. induction keys as [|k keys IH]; intros name; [reflexivity|].
  cbn [foldl]. rewrite IH, last_cons. by destruct (last keys).
Qed.

Lemma zero_counts_fmap cf :
  Filter.zero_counts (map_to_list cf).*1 = (fun _ => 0) <$> cf.
Proof.
  apply map_eq. intros k. rewrite zero_counts_lookup, lookup_fmap.
  destruct (cf !! k) as [g|] eqn:Hk; simpl.
  - rewrite decide_True; [reflexivity|].
    apply list_elem_of_fmap. exists (k, g). split; [reflexivity|].
    by apply elem_of_map_to_list.
  - rewrite decide_False; [reflexivity|].
    intros ([k' g] & -> & Hin%elem_of_map_to_list)%list_elem_of_fmap.
    simpl in Hk. congruence.
Qed.

End init_lemmas.

(** X1: the name of a constructed filter.  Without count functions it is
    the [name] argument, or the class name when no name is given.  With
    count functions it is the label of one of them, whatever the [name]
    argument: the loop over the labels rebinds [name]. *)
Theorem init_name {Event World : Type} cls hooks passthrough name
    (count_funcs : option (gmap string (Event -> Z))) :
  let f := Filter.__init__ (World:=World) cls hooks passthrough name
             count_funcs in
  (Filter.count_funcs f = ∅ -> Filter.name f = default cls name) /\
  (Filter.count_funcs f <> ∅ -> Filter.name f ∈ dom (Filter.count_funcs f)).
Proof.
  cbn zeta. unfold Filter.__init__. cbn [Filter.name Filter.count_funcs].
  set (cf := match count_funcs with Some c => c | None => ∅ end).
  rewrite foldl_last_key. split.
  - intros ->. rewrite map_to_list_empty. by destruct name.
  - intros Hne.
    destruct (last (map_to_list cf).*1) as [k|] eqn:Hlast.
    + apply last_Some_elem_of in Hlast.
      apply list_elem_of_fmap in Hlast as ([k' g] & -> & Hin).
      apply elem_of_map_to_list in Hin. apply elem_of_dom. by exists g.
    + apply last_None, fmap_nil_inv, map_to_list_empty_iff in Hlast.
      contradiction.
Qed.

(** A filter constructed with the name "A" and one count function "w" is
    named "w"; without the count function it is named "A". *)
Lemma init_name_witness :
  Filter.name (Filter.__init__ (Event:=unit) (World:=unit) "EventFilter"
                 None false (Some "A") (Some {[ "w" := fun _ => 1 ]})) = "w" /\
  Filter.name (Filter.__init__ (Event:=unit) (World:=unit) "EventFilter"
                 None false (Some "A") None) = "A".
Proof.
  split.
  - destruct (init_name (Event:=unit) (World:=unit) "EventFilter" None false
                (Some "A") (Some {[ "w" := fun _ => 1 ]})) as [_ Hlabel].
    cbn [Filter.__init__ Filter.name Filter.count_funcs] in Hlabel.
    rewrite dom_singleton_L in Hlabel.
    assert ({[ "w" := fun _ : unit => 1 ]} <> (∅ : gmap string (unit -> Z)))
      as Hne.
    { intros Hempty. apply (f_equal (fun m => m !! "w")) in Hempty.
      rewrite lookup_singleton_eq, lookup_empty in Hempty. discriminate. }
    apply Hlabel in Hne. apply elem_of_singleton in Hne. exact Hne.
  - destruct (init_name (Event:=unit) (World:=unit) "EventFilter" None false
                (Some "A") None) as [Hname _].
    exact (Hname eq_refl).
Defined.

(** X2: a constructed filter starts with both counters at 0, no details,
    and a total and a passing tally of 0 for exactly the labels of its
    count functions. *)
Theorem init_counters {Event World : Type} cls hooks passthrough name
    (count_funcs : option (gmap string (Event -> Z))) :
  let f := Filter.__init__ (World:=World) cls hooks passthrough name
             count_funcs in
  Filter.total f = 0 /\ Filter.passing f = 0 /\
  Filter.details f = ∅ /\ Filter.was_passed f = false /\
  Filter.count_funcs f = default ∅ count_funcs /\
  Filter.count_funcs_total f = (fun _ => 0) <$> Filter.count_funcs f /\
  Filter.count_funcs_passing f = (fun _ => 0) <$> Filter.count_funcs f.
Proof.
  cbn zeta. unfold Filter.__init__. simpl.
  rewrite zero_counts_fmap. repeat split; by destruct count_funcs.
Qed.

(** * Missing tallies and the exact update of the tallies *)

Section tally_updates.
Context {Event World : Type}.
Implicit Types f : Filter.t Event World.
Implicit Types tot pas : gmap string Z.
Implicit Types items : list (string * (Event -> Z)).
Implicit Types event : Event.

Lemma iadd_outcome tot key count :
  (exists v, tot !! key = Some v /\
     Filter.iadd tot key count = inr (<[key := v + count]> tot) /\
     dom (<[key := v + count]> tot) = dom tot) \/
  ((key ∉ dom tot) /\ Filter.iadd tot key count = inl (KeyError key)).
Proof.
  unfold Filter.iadd. destruct (tot !! key) as [v|] eqn:Hkey.
  - left. exists v. split; [reflexivity|]. split; [reflexivity|].
    rewrite dom_insert_L. apply (elem_of_dom_2 (D:=gset string)) in Hkey.
    by apply subseteq_union_1_L, singleton_subseteq_l.
  - right. split; [by apply not_elem_of_dom | reflexivity].
Qed.

Lemma count_failed_outcome items event tot :
  (exists tot', Filter.count_failed items event tot = inr tot' /\
     dom tot' = dom tot /\
     forall k g, (k, g) ∈ items -> k ∈ dom tot) \/
  (exists k g, (k, g) ∈ items /\ (k ∉ dom tot) /\
     Filter.count_failed items event tot = inl (KeyError k)).
Proof.
  revert tot. induction items as [|[k0 g0] items IH]; intros tot.
  - left. exists tot. split; [reflexivity|]. split; [reflexivity|].
    intros k g []%elem_of_nil.
  - cbn [Filter.count_failed].
    destruct (iadd_outcome tot k0 (g0 event))
      as [(v & Hv & -> & Hdom)|[Hout ->]].
    + simpl. destruct (IH (<[k0 := v + g0 event]> tot))
        as [(tot' & -> & Hdom' & Hall)|(k & g & Hin & Hout & ->)].
      * left. exists tot'. split; [reflexivity|].
        split; [congruence|].
        intros k g [[= -> ->]|Hin]%elem_of_cons.
        -- by apply (elem_of_dom_2 (D:=gset string)) in Hv.
        -- rewrite <- Hdom. by apply (Hall k g).
      * right. exists k, g. split; [by apply list_elem_of_further|].
        split; [by rewrite <- Hdom | reflexivity].
    + right. exists k0, g0. split; [apply list_elem_of_here|].
      split; [exact Hout | reflexivity].
Qed.

Lemma count_passed_outcome items event tot pas :
  (exists tot' pas',
     Filter.count_passed items event (tot, pas) = inr (tot', pas') /\
     dom tot' = dom tot /\ dom pas' = dom pas /\
     forall k g, (k, g) ∈ items -> k ∈ dom tot /\ k ∈ dom pas) \/
  (exists k g, (k, g) ∈ items /\ (k ∉ dom tot \/ k ∉ dom pas) /\
     Filter.count_passed items event (tot, pas) = inl (KeyError k)).
Proof.
  revert tot pas. induction items as [|[k0 g0] items IH]; intros tot pas.
  - left. exists tot, pas. split; [reflexivity|]. split; [reflexivity|].
    split; [reflexivity|]. intros k g []%elem_of_nil.
  - cbn [Filter.count_passed fst snd].
    destruct (iadd_outcome tot k0 (g0 event))
      as [(v & Hv & -> & Hdom)|[Hout ->]].
    + simpl. destruct (iadd_outcome pas k0 (g0 event))
        as [(u & Hu & -> & Hdomp)|[Hout ->]].
      * simpl.
        destruct (IH (<[k0 := v + g0 event]> tot) (<[k0 := u + g0 event]> pas))
          as [(tot' & pas' & -> & Hdom' & Hdomp' & Hall)
             |(k & g & Hin & Hout & ->)].
        -- left. exists tot', pas'. split; [reflexivity|].
           split; [congruence|]. split; [congruence|].
           intros k g [[= -> ->]|Hin]%elem_of_cons.
           ++ split; [by apply (elem_of_dom_2 (D:=gset string)) in Hv
                     | by apply (elem_of_dom_2 (D:=gset string)) in Hu].
           ++ rewrite <- Hdom, <- Hdomp. by apply (Hall k g).
        -- right. exists k, g. split; [by apply list_elem_of_further|].
           split; [by rewrite <- Hdom, <- Hdomp | reflexivity].
      * right. exists k0, g0. split; [apply list_elem_of_here|].
        split; [by right | reflexivity].
    + right. exists k0, g0. split; [apply list_elem_of_here|].
      split; [by left | reflexivity].
Qed.



End tally_updates.

(** X3: [failed] returns when every count-function label has a total
    tally, and raises [KeyError] for such a label when one has none;
    [passed] needs both the total and the passing tally of every label. *)
Theorem tallies_missing {Event World : Type} (f : Filter.t Event World)
    (event : Event) :
  let labels := dom (Filter.count_funcs f) in
  let totals := dom (Filter.count_funcs_total f) in
  let passings := dom (Filter.count_funcs_passing f) in
  (labels ⊆ totals -> exists f', Filter.failed f event = inr f') /\
  ((exists k, k ∈ labels /\ (k ∉ totals)) ->
   exists k, k ∈ labels /\ (k ∉ totals) /\
     Filter.failed f event = inl (KeyError k)) /\
  (labels ⊆ totals -> labels ⊆ passings ->
   exists f', Filter.passed f event = inr f') /\
  ((exists k, k ∈ labels /\ (k ∉ totals \/ k ∉ passings)) ->
   exists k, k ∈ labels /\ (k ∉ totals \/ k ∉ passings) /\
     Filter.passed f event = inl (KeyError k)).
Proof.
  intros labels totals passings.
  assert (Hitems : forall k g,
            (k, g) ∈ map_to_list (Filter.count_funcs f) -> k ∈ labels).
  { intros k g Hin%elem_of_map_to_list. apply elem_of_dom. by exists g. }
  assert (Hlabels : forall k, k ∈ labels ->
            exists g, (k, g) ∈ map_to_list (Filter.count_funcs f)).
  { intros k [g Hg]%elem_of_dom. exists g. by apply elem_of_map_to_list. }
  pose proof (count_failed_outcome (map_to_list (Filter.count_funcs f)) event
                (Filter.count_funcs_total f)) as Hfailed.
  pose proof (count_passed_outcome (map_to_list (Filter.count_funcs f)) event
                (Filter.count_funcs_total f) (Filter.count_funcs_passing f))
    as Hpassed.
  unfold Filter.failed, Filter.passed.
  split; [|split; [|split]].
  - intros Hsub.
    destruct Hfailed as [(tot' & -> & _)|(k & g & Hin & Hout & _)].
    + eexists. reflexivity.
    + exfalso. apply Hout, Hsub, (Hitems k g Hin).
  - intros (k & Hk & Hout).
    destruct Hfailed as [(tot' & _ & _ & Hall)|(k' & g & Hin & Hout' & ->)].
    + exfalso. destruct (Hlabels k Hk) as [g Hin]. apply Hout, (Hall k g Hin).
    + exists k'. split; [exact (Hitems k' g Hin)|]. split; [exact Hout'|].
      reflexivity.
  - intros Hsub Hsubp.
    destruct Hpassed as [(tot' & pas' & -> & _)|(k & g & Hin & Hout & _)].
    + eexists. reflexivity.
    + exfalso. pose proof (Hitems k g Hin) as Hk.
      destruct Hout as [Hout|Hout]; apply Hout; auto.
  - intros (k & Hk & Hout).
    destruct Hpassed
      as [(tot' & pas' & _ & _ & _ & Hall)|(k' & g & Hin & Hout' & ->)].
    + exfalso. destruct (Hlabels k Hk) as [g Hin].
      destruct (Hall k g Hin) as [Ht Hp]. destruct Hout as [Hout|Hout]; auto.
    + exists k'. split; [exact (Hitems k' g Hin)|]. split; [exact Hout'|].
      reflexivity.
Qed.

(** A fresh filter with the count function "w" counts a failed event; the
    same count function on a filter without tallies raises [KeyError]. *)
Lemma tallies_missing_witness :
  (exists f', Filter.failed Scenario.pos () = inr f') /\
  Filter.failed Scenario.untallied () = inl (KeyError "w") /\
  Filter.passed Scenario.untallied () = inl (KeyError "w").
Proof.
  split; [|split].
  - destruct (tallies_missing Scenario.pos ()) as (Hok & _).
    apply Hok. apply (bool_decide_unpack _). vm_compute. exact I.
  - destruct (tallies_missing Scenario.untallied ()) as (_ & Herr & _).
    destruct Herr as (k & Hk & _ & ->).
    + exists "w". split; apply (bool_decide_unpack _); vm_compute; exact I.
    + cbn [Scenario.untallied Filter.count_funcs] in Hk.
      rewrite dom_singleton_L in Hk. apply elem_of_singleton in Hk.
      by rewrite Hk.
  - destruct (tallies_missing Scenario.untallied ()) as (_ & _ & _ & Herr).
    destruct Herr as (k & Hk & _ & ->).
    + exists "w". split; [apply (bool_decide_unpack _); vm_compute; exact I|].
      left. apply (bool_decide_unpack _). vm_compute. exact I.
    + cbn [Scenario.untallied Filter.count_funcs] in Hk.
      rewrite dom_singleton_L in Hk. apply elem_of_singleton in Hk.
      by rewrite Hk.
Defined.



(** * Algebra of [Filter.add] *)

Section add_algebra.
Context {Event World : Type}.
Implicit Types a b c : Filter.t Event World.
Implicit Types A B C : gmap string Z.

Lemma zip_add_comm A B :
  map_zip_with Z.add A B = map_zip_with Z.add B A.
Proof.
  apply map_eq. intros k. rewrite !map_lookup_zip_with.
  destruct (A !! k), (B !! k); simpl; try reflexivity. f_equal. lia.
Qed.


Lemma sum_of_comm a b :
  Filter.name a = Filter.name b -> sum_of a b = sum_of b a.
Proof.
  intros Hname. unfold sum_of. rewrite Hname, zip_add_comm.
  f_equal; lia.
Qed.



End add_algebra.

(** X5: when [add] returns for both orders of its operands, it returns
    the same filter; it returns for both orders exactly when the names are
    equal and the two [details] have the same keys. *)
Theorem add_commutes {Event World : Type} (a b : Filter.t Event World) :
  (forall x y, Filter.add a b = inr x -> Filter.add b a = inr y -> x = y) /\
  ((exists x, Filter.add a b = inr x) /\ (exists y, Filter.add b a = inr y)
   <-> Filter.name a = Filter.name b /\
       dom (Filter.details a) = dom (Filter.details b)).
Proof.
  split.
  - intros x y (Hname & _ & ->)%add_inr (_ & _ & ->)%add_inr.
    by apply sum_of_comm.
  - split.
    + intros [[x (Hname & Hab & _)%add_inr] [y (_ & Hba & _)%add_inr]].
      split; [exact Hname|]. apply (anti_symm (⊆)); assumption.
    + intros [Hname Hdom]. split.
      * exists (sum_of a b). apply add_inr. by rewrite Hdom.
      * exists (sum_of b a). apply add_inr. by rewrite Hdom.
Qed.

(** The two runs of filter "A" add up to the same filter in both orders. *)
Lemma add_commutes_witness :
  exists x, Filter.add Scenario.A1 Scenario.A2 = inr x /\
            Filter.add Scenario.A2 Scenario.A1 = inr x /\
            Filter.total x = 15.
Proof.
  destruct (add_commutes Scenario.A1 Scenario.A2) as [Hsame [_ Hboth]].
  destruct Hboth as [[x Hx] [y Hy]].
  - split; [reflexivity|]. apply (bool_decide_unpack _). vm_compute. exact I.
  - exists x. split; [exact Hx|]. rewrite (Hsame x y Hx Hy).
    split; [exact Hy|]. apply add_inr in Hy as (_ & _ & ->). reflexivity.
Defined.



(** * Reading a serialised state *)

Section state_lemmas.
Context {Event World : Type}.
Implicit Types self f : Filter.t Event World.
Implicit Types state : gmap string value.

Lemma state_keys_spec (k : string) :
  k ∈ state_keys <->
  k = "name" \/ k = "total" \/ k = "passing" \/ k = "details" \/
  k = "count_funcs_total" \/ k = "count_funcs_passing".
Proof. unfold state_keys. set_unfold. tauto. Qed.

Lemma getstate_dom f : dom (Filter.__getstate__ f) = state_keys.
Proof. reflexivity. Qed.

Lemma get_str_inr state key x :
  getitem state key ≫= as_str key = inr x <-> state !! key = Some (VStr x).
Proof.
  cbv [getitem mbind result_bind as_str mret result_ret raise].
  destruct (state !! key) as [[s|z|m]|];
    split; intros H; try discriminate; congruence.
Qed.

Lemma get_int_inr state key x :
  getitem state key ≫= as_int key = inr x <-> state !! key = Some (VInt x).
Proof.
  cbv [getitem mbind result_bind as_int mret result_ret raise].
  destruct (state !! key) as [[s|z|m]|];
    split; intros H; try discriminate; congruence.
Qed.

Lemma get_map_inr state key x :
  getitem state key ≫= as_map key = inr x <-> state !! key = Some (VMap x).
Proof.
  cbv [getitem mbind result_bind as_map mret result_ret raise].
  destruct (state !! key) as [[s|z|m]|];
    split; intros H; try discriminate; congruence.
Qed.

Lemma setstate_inr self state f :
  Filter.__setstate__ self state = inr f ->
  state !! "name" = Some (VStr (Filter.name f)) /\
  state !! "total" = Some (VInt (Filter.total f)) /\
  state !! "passing" = Some (VInt (Filter.passing f)) /\
  state !! "details" = Some (VMap (Filter.details f)) /\
  state !! "count_funcs_total" = Some (VMap (Filter.count_funcs_total f)) /\
  state !! "count_funcs_passing"
  = Some (VMap (Filter.count_funcs_passing f)) /\
  Filter.count_funcs f = Filter.count_funcs self /\
  Filter.hooks f = Filter.hooks self /\
  Filter.passthrough f = Filter.passthrough self /\
  Filter.was_passed f = Filter.was_passed self.
Proof.
  unfold Filter.__setstate__.
  intros (n & Hn%get_str_inr & (tot & Htot%get_int_inr &
          (pas & Hpas%get_int_inr & (det & Hdet%get_map_inr &
          (cft & Hcft%get_map_inr & (cfp & Hcfp%get_map_inr & [= <-])
          %bind_inr)%bind_inr)%bind_inr)%bind_inr)%bind_inr)%bind_inr.
  simpl. repeat split; assumption.
Qed.

End state_lemmas.

(** X7: [__setstate__] reads the six keys of the state and nothing else,
    and the state of the filter it leaves agrees with the state it was
    given on these keys; a state that has no other key is given back
    unchanged by [__getstate__]. *)
Theorem state_roundtrip_back {Event World : Type}
    (self : Filter.t Event World) (state : gmap string value) :
  (forall state',
     (forall k, k ∈ state_keys -> state' !! k = state !! k) ->
     Filter.__setstate__ self state' = Filter.__setstate__ self state) /\
  (forall f, Filter.__setstate__ self state = inr f ->
     (forall k, k ∈ state_keys -> Filter.__getstate__ f !! k = state !! k) /\
     (dom state = state_keys -> Filter.__getstate__ f = state)).
Proof.
  split.
  - intros state' Hagree. unfold Filter.__setstate__, getitem.
    rewrite !Hagree by (apply state_keys_spec; tauto). reflexivity.
  - intros f (Hn & Htot & Hpas & Hdet & Hcft & Hcfp & _)%setstate_inr.
    assert (forall k, k ∈ state_keys ->
              Filter.__getstate__ f !! k = state !! k) as Hagree.
    { intros k Hk. apply state_keys_spec in Hk.
      destruct Hk as [->|[->|[->|[->|[->| ->]]]]];
        [rewrite Hn|rewrite Htot|rewrite Hpas|rewrite Hdet
        |rewrite Hcft|rewrite Hcfp]; reflexivity. }
    split; [exact Hagree|]. intros Hdom. apply map_eq. intros k.
    destruct (decide (k ∈ state_keys)) as [Hk|Hk]; [by apply Hagree|].
    transitivity (@None value).
    + apply not_elem_of_dom. by rewrite getstate_dom.
    + symmetry. apply not_elem_of_dom. by rewrite Hdom.
Qed.

(** The state of filter "A" with one more key, "weight": the filter set
    from it has the state of "A", which lacks that key. *)
Lemma state_roundtrip_back_witness :
  exists f : Filter.t unit unit,
    Filter.__setstate__ Filter.new
      (<[ "weight" := VInt 1 ]> (Filter.__getstate__ Scenario.A1)) = inr f /\
    Filter.__getstate__ f = Filter.__getstate__ Scenario.A1 /\
    Filter.__getstate__ f !! "weight" = None.
Proof.
  destruct (state_roundtrip_back (Filter.new (Event:=unit) (World:=unit))
              (Filter.__getstate__ Scenario.A1)) as [Hreads Hback].
  exists (restored Scenario.A1). split; [|split].
  - rewrite Hreads; [reflexivity|].
    intros k Hk. apply lookup_insert_ne. intros <-.
    revert Hk. apply (bool_decide_unpack _). vm_compute. exact I.
  - destruct (Hback (restored Scenario.A1) eq_refl) as [_ Hsame].
    apply Hsame. reflexivity.
  - reflexivity.
Defined.

(** * More on merging filter lists *)

Section merge_more.
Context {Event World : Type}.
Implicit Types l : FilterList.t Event World.
Implicit Types pairs : list (FilterList.item Event World *
                             FilterList.item Event World).
Implicit Types f g : Filter.t Event World.

Lemma merge_pairs_inr pairs l :
  FilterList.merge_pairs pairs = inr l ->
  length l = length pairs /\ Forall is_sum l.
Proof.
  revert l. induction pairs as [|[x y] pairs IH]; intros l.
  - intros [= <-]. split; [reflexivity | constructor].
  - cbn [FilterList.merge_pairs].
    intros (f & _ & (g & _ & (s & Hadd & (rest & Hrest & ->)%fmap_inr)
            %bind_inr)%bind_inr)%bind_inr.
    destruct (IH rest Hrest) as [Hlen Hall]. split; [simpl; congruence|].
    constructor; [|exact Hall].
    apply add_inr in Hadd as (_ & _ & ->). exists (sum_of f g). auto.
Qed.

Lemma upgrade_getstate f :
  FilterList.upgrade (FilterList.IState (Filter.__getstate__ f))
  = inr (restored f).
Proof. reflexivity. Qed.

Lemma add_restored f g :
  Filter.add (restored f) (restored g) = Filter.add f g.
Proof. reflexivity. Qed.

Lemma basic_inr l (states : list (gmap string value)) :
  FilterList.basic l = inr states <->
  exists fs : list (Filter.t Event World),
    l = FilterList.IFilter <$> fs /\ states = Filter.__getstate__ <$> fs.
Proof.
  revert states. induction l as [|[f|state] l IH]; intros states;
    cbn [FilterList.basic FilterList.item_getstate].
  - split.
    + intros [= <-]. by exists [].
    + intros (fs & Hl & ->). symmetry in Hl. apply fmap_nil_inv in Hl as ->.
      reflexivity.
  - simpl. rewrite fmap_inr. split.
    + intros (rest & (fs & -> & ->)%IH & ->). by exists (f :: fs).
    + intros ([|f' fs] & [=] & ->). subst. exists (Filter.__getstate__ <$> fs).
      split; [|reflexivity]. apply IH. by exists fs.
  - simpl. split; [discriminate|].
    intros ([|f' fs] & [=] & _).
Qed.

Lemma merge_pairs_cons x y pairs :
  FilterList.merge_pairs ((x, y) :: pairs) =
  FilterList.upgrade x ≫= fun f =>
  FilterList.upgrade y ≫= fun g =>
  Filter.__add__ f g ≫= fun s =>
  cons (FilterList.IFilter s) <$> FilterList.merge_pairs pairs.
Proof. reflexivity. Qed.

Lemma inr_bind {A B : Type} (x : A) (k : A -> result B) : inr x ≫= k = k x.
Proof. reflexivity. Qed.

Lemma merge_states (fs gs : list (Filter.t Event World)) :
  FilterList.merge
    (FilterList.IState <$> (Filter.__getstate__ <$> fs))
    (FilterList.IState <$> (Filter.__getstate__ <$> gs))
  = FilterList.merge (FilterList.IFilter <$> fs) (FilterList.IFilter <$> gs).
Proof.
  unfold FilterList.merge. revert gs.
  induction fs as [|f fs IH]; intros [|g gs]; try reflexivity.
  rewrite !fmap_cons.
  change (FilterList.merge_pairs
            ((FilterList.IState (Filter.__getstate__ f),
              FilterList.IState (Filter.__getstate__ g))
             :: zip (FilterList.IState <$> (Filter.__getstate__ <$> fs))
                    (FilterList.IState <$> (Filter.__getstate__ <$> gs)))
          = FilterList.merge_pairs
              ((FilterList.IFilter f, FilterList.IFilter g)
               :: zip (FilterList.IFilter <$> fs) (FilterList.IFilter <$> gs))).
  rewrite !merge_pairs_cons, !upgrade_getstate, IH.
  change (FilterList.upgrade (FilterList.IFilter f)) with (inr f : result _).
  change (FilterList.upgrade (FilterList.IFilter g)) with (inr g : result _).
  rewrite !inr_bind. unfold Filter.__add__. by rewrite add_restored.
Qed.

End merge_more.

(** X8: [merge] pairs the elements up to the length of the shorter list
    and never looks at what the longer list holds beyond it: the merged
    list is as long as the shorter list, and it is the merge of the two
    lists cut to that length. *)
Theorem merge_truncates {Event World : Type}
    (l1 l2 : FilterList.t Event World) :
  let n := min (length l1) (length l2) in
  FilterList.merge l1 l2 = FilterList.merge (take n l1) (take n l2) /\
  (forall l, FilterList.merge l1 l2 = inr l -> length l = n).
Proof.
  intros n. unfold FilterList.merge. split.
  - unfold zip. symmetry. f_equal. apply zip_with_take_both'; lia.
  - intros l [Hlen _]%merge_pairs_inr. rewrite Hlen. apply length_zip_with.
Qed.

(** The first run with a fourth element, a state without keys, merges
    with the second run into three filters: the fourth is never read. *)
Lemma merge_truncates_witness :
  exists l, FilterList.merge Scenario.run1_longer Scenario.run2 = inr l /\
            length l = 3%nat.
Proof.
  destruct (merge_truncates Scenario.run1_longer Scenario.run2)
    as [Hcut Hlen].
  assert (exists l, FilterList.merge Scenario.run1_longer Scenario.run2
                    = inr l) as [l Hl].
  { rewrite Hcut. vm_compute. eexists. reflexivity. }
  exists l. split; [exact Hl|]. exact (Hlen l Hl).
Defined.

(** X9: every element of a list that [merge] returns is a filter without
    count functions and without weighted tallies; so the [total] and the
    [passing] of a merged list never raise, and [basic] returns its
    states. *)
Theorem merge_result {Event World : Type}
    (l1 l2 l : FilterList.t Event World) :
  FilterList.merge l1 l2 = inr l ->
  Forall is_sum l /\
  (exists t p, FilterList.total l = inr t /\ FilterList.passing l = inr p) /\
  (exists states, FilterList.basic l = inr states /\
                  length states = length l).
Proof.
  unfold FilterList.merge. intros [_ Hall]%merge_pairs_inr.
  split; [exact Hall|].
  assert (exists fs : list (Filter.t Event World),
            l = FilterList.IFilter <$> fs) as [fs ->].
  { clear l1 l2. induction Hall as [|h l (s & -> & _) _ [fs ->]].
    - by exists [].
    - by exists (s :: fs). }
  split.
  - unfold FilterList.total, FilterList.passing. rewrite fmap_last.
    destruct fs as [|f fs]; [by exists 0, 0|].
    rewrite fmap_cons.
    destruct (last (f :: fs)) as [g|] eqn:Hlast.
    + by exists (Filter.total f), (Filter.passing g).
    + by apply last_None in Hlast.
  - exists (Filter.__getstate__ <$> fs). split.
    + apply basic_inr. by exists fs.
    + by rewrite !length_fmap.
Qed.

(** The merge of the two runs of three cuts has a total and a passing
    count, and [basic] gives its three states. *)
Lemma merge_result_witness :
  exists l t p states,
    FilterList.merge Scenario.run1 Scenario.run2 = inr l /\
    FilterList.total l = inr t /\ FilterList.passing l = inr p /\
    FilterList.basic l = inr states /\ length states = length l.
Proof.
  assert (exists l, FilterList.merge Scenario.run1 Scenario.run2 = inr l)
    as [l Hl] by (vm_compute; eexists; reflexivity).
  destruct (merge_result Scenario.run1 Scenario.run2 l Hl)
    as (_ & (t & p & Ht & Hp) & (states & Hs & Hlen)).
  exists l, t, p, states. auto.
Defined.

(** X10: [basic] returns exactly for a list that holds filters only, and
    then gives the state of each filter; merging the states of two such
    lists gives what merging the lists themselves gives. *)
Theorem basic_merge {Event World : Type}
    (l1 l2 : FilterList.t Event World)
    (states1 states2 : list (gmap string value)) :
  (FilterList.basic l1 = inr states1 <->
   exists fs : list (Filter.t Event World),
     l1 = FilterList.IFilter <$> fs /\
     states1 = Filter.__getstate__ <$> fs) /\
  (FilterList.basic l1 = inr states1 ->
   FilterList.basic l2 = inr states2 ->
   FilterList.merge (FilterList.IState <$> states1)
                    (FilterList.IState <$> states2)
   = FilterList.merge l1 l2).
Proof.
  split; [apply basic_inr|].
  intros (fs & -> & ->)%basic_inr (gs & -> & ->)%basic_inr.
  apply merge_states.
Qed.

(** Two runs of two cuts, one of them with a weighted tally: merging
    their states gives the merge of the runs. *)
Lemma basic_merge_witness :
  exists states1 states2,
    FilterList.basic Scenario.cuts1 = inr states1 /\
    FilterList.basic Scenario.cuts2 = inr states2 /\
    FilterList.merge (FilterList.IState <$> states1)
                     (FilterList.IState <$> states2)
    = FilterList.merge Scenario.cuts1 Scenario.cuts2.
Proof.
  eexists _, _. split; [reflexivity|]. split; [reflexivity|].
  destruct (basic_merge Scenario.cuts1 Scenario.cuts2
              (Filter.__getstate__ <$> [Scenario.W; Scenario.Dx])
              (Filter.__getstate__ <$> [Scenario.W; Scenario.Dxy]))
    as [_ Hmerge].
  apply Hmerge; reflexivity.
Defined.

(** * More on event filters *)

Section event_more.
Context {Event World : Type}.
Implicit Types f : Filter.t Event World.
Implicit Types self : EventFilter.t Event World.
Implicit Types event : Event.
Implicit Types w : World.

Lemma passed_frame f event f' :
  Filter.passed f event = inr f' ->
  Filter.name f' = Filter.name f /\
  Filter.hooks f' = Filter.hooks f /\
  Filter.passthrough f' = Filter.passthrough f.
Proof.
  unfold Filter.passed. intros (tp & _ & [= <-])%bind_inr. simpl. auto.
Qed.

Lemma failed_frame f event f' :
  Filter.failed f event = inr f' ->
  Filter.name f' = Filter.name f /\
  Filter.hooks f' = Filter.hooks f /\
  Filter.passthrough f' = Filter.passthrough f.
Proof.
  unfold Filter.failed. intros (tot & _ & [= <-])%bind_inr. simpl. auto.
Qed.

(** The three ways a call of an event filter can return. *)
Lemma event_call_cases self event w ok self' w' :
  EventFilter.__call__ self event w = inr (ok, self', w') ->
  EventFilter.passes self' = EventFilter.passes self /\
  ((verdict self event = None /\ ok = false /\ self' = self /\ w' = w) \/
   (verdict self event = Some true /\ ok = true /\
    Filter.passed (EventFilter.base self) event
    = inr (EventFilter.base self') /\
    w' = EventFilter.run_hooks (Filter.hooks (EventFilter.base self)) w) \/
   (verdict self event = Some false /\ ok = false /\
    Filter.failed (EventFilter.base self) event
    = inr (EventFilter.base self') /\ w' = w)).
Proof.
  unfold EventFilter.__call__, verdict.
  destruct (Filter.passthrough (EventFilter.base self)).
  - intros (b & Hb & [= <- <- <-])%bind_inr. split; [reflexivity|].
    right; left. auto.
  - destruct (EventFilter.passes self event) as [[|]|].
    + intros (b & Hb & [= <- <- <-])%bind_inr. split; [reflexivity|].
      right; left. auto.
    + intros (b & Hb & [= <- <- <-])%bind_inr. split; [reflexivity|].
      right; right. auto.
    + intros [= <- <- <-]. split; [reflexivity|]. left. auto.
Qed.


End event_more.

(** X11: an event filter in passthrough mode, and one that keeps the
    [passes] of the base class, accepts every event: the call runs the
    hooks, records [passed(event)] and returns true.  In passthrough mode
    [passes] is not consulted. *)
Theorem event_accepts_all {Event World : Type}
    (self : EventFilter.t Event World) (event : Event) (w : World) :
  Filter.passthrough (EventFilter.base self) = true \/
  EventFilter.passes self event = EventFilter.passes_default event ->
  EventFilter.__call__ self event w =
  (fun b => (true, EventFilter.mk b (EventFilter.passes self),
             EventFilter.run_hooks (Filter.hooks (EventFilter.base self)) w))
    <$> Filter.passed (EventFilter.base self) event.
Proof.
  unfold EventFilter.__call__, EventFilter.passes_default.
  intros [->| ->].
  - destruct (Filter.passed _ _); reflexivity.
  - destruct (Filter.passthrough _), (Filter.passed _ _); reflexivity.
Qed.


(** X12: what a call of an event filter that returns has done.  It
    returns true exactly for an accepted event; [passing] has grown by 1
    if it returns true and [total] by 1 unless the filter abstained; the
    hooks have run if it returns true and not otherwise; after an
    abstention the filter is as before, [was_passed] included, otherwise
    [was_passed] is the value returned.  Name, details, hooks,
    passthrough mode and count functions stay. *)
Theorem event_call_effect {Event World : Type}
    (self self' : EventFilter.t Event World) (event : Event) (w w' : World)
    (ok : bool) :
  EventFilter.__call__ self event w = inr (ok, self', w') ->
  let b := EventFilter.base self in
  let b' := EventFilter.base self' in
  ok = accepted self event /\
  Filter.passing b' = Filter.passing b + (if ok then 1 else 0) /\
  Filter.total b' = Filter.total b + (if counted self event then 1 else 0) /\
  w' = (if ok then EventFilter.run_hooks (Filter.hooks b) w else w) /\
  (counted self event = true -> Filter.was_passed b' = ok) /\
  (counted self event = false -> self' = self) /\
  EventFilter.passes self' = EventFilter.passes self /\
  Filter.name b' = Filter.name b /\
  Filter.details b' = Filter.details b /\
  Filter.hooks b' = Filter.hooks b /\
  Filter.passthrough b' = Filter.passthrough b /\
  Filter.count_funcs b' = Filter.count_funcs b.
Proof.
  intros Hcall b b'.
  apply event_call_cases in Hcall as [Hpasses Hcases].
  unfold accepted, counted.
  destruct Hcases as [(-> & -> & -> & ->)
                     |[(-> & -> & Hp & ->)|(-> & -> & Hf & ->)]].
  - subst b'. fold b.
    repeat split; intros; try reflexivity; try lia; discriminate.
  - pose proof (passed_inr _ _ _ Hp) as (Ht & Hpa & Hcf & Hd & Hwp).
    pose proof (passed_frame _ _ _ Hp) as (Hn & Hh & Hpt).
    fold b b' in Ht, Hpa, Hcf, Hd, Hwp, Hn, Hh, Hpt.
    repeat split; intros; try assumption; try reflexivity; discriminate.
  - pose proof (failed_inr _ _ _ Hf) as (Ht & Hpa & Hcf & _ & Hd & Hwp).
    pose proof (failed_frame _ _ _ Hf) as (Hn & Hh & Hpt).
    fold b b' in Ht, Hpa, Hcf, Hd, Hwp, Hn, Hh, Hpt.
    repeat split; intros; try assumption; try reflexivity; try lia;
      discriminate.
Qed.

(** The filter [picky] rejects event 1: the call returns false, counts
    the event in [total] only and leaves the hook counter at 5. *)
Lemma event_call_effect_witness :
  exists self',
    EventFilter.__call__ Scenario.picky 1%nat 5%nat = inr (false, self', 5%nat) /\
    Filter.total (EventFilter.base self') = 1 /\
    Filter.passing (EventFilter.base self') = 0 /\
    Filter.was_passed (EventFilter.base self') = false.
Proof.
  assert (exists self',
            EventFilter.__call__ Scenario.picky 1%nat 5%nat
            = inr (false, self', 5%nat)) as [self' Hcall]
    by (vm_compute; eexists; reflexivity).
  destruct (event_call_effect _ _ _ _ _ _ Hcall)
    as (_ & Hp & Ht & _ & Hwp & _).
  exists self'. split; [exact Hcall|]. split; [exact Ht|].
  split; [exact Hp|]. apply Hwp. reflexivity.
Defined.

(** An event filter that keeps the base class's [passes] accepts event 7
    and counts it. *)
Lemma event_accepts_all_witness :
  exists self',
    EventFilter.__call__ (Scenario.accepting "A") 7%nat 0%nat
    = inr (true, self', 0%nat) /\
    Filter.total (EventFilter.base self') = 1 /\
    Filter.passing (EventFilter.base self') = 1.
Proof.
  eexists. split.
  - rewrite (event_accepts_all (Scenario.accepting "A") 7%nat 0%nat);
      [reflexivity | right; reflexivity].
  - split; reflexivity.
Defined.

(** * Streams of events through one event filter *)

Section event_stream.
Context {Event World : Type}.
Implicit Types self : EventFilter.t Event World.
Implicit Types events : list Event.






End event_stream.


(** * One event through a list of event filters *)

Section event_list_more.
Context {Event World : Type}.
Implicit Types self rest : EventFilterList.t Event World.
Implicit Types filter : EventFilter.t Event World.
Implicit Types event : Event.
Implicit Types w : World.










End event_list_more.





(** * Streams of events through a list of event filters *)

Section list_stream.
Context {Event World : Type}.
Implicit Types self rest : EventFilterList.t Event World.
Implicit Types filter : EventFilter.t Event World.
Implicit Types events : list Event.




End list_stream.



(** * More on object filters *)

(** X17: a call of an object filter changes [total], [passing] and
    [was_passed] and nothing else: it evaluates no count function and
    runs no hook, so the weighted tallies, the details, the name and the
    configuration stay as they were; [was_passed] tells whether the
    retained collection is non-empty. *)
Theorem object_call_frame {Event World Obj : Type}
    (self : ObjectFilter.t Event World Obj) (event : Event)
    (collection : list Obj) :
  let out := ObjectFilter.__call__ self event collection in
  let b := ObjectFilter.base self in
  let b' := ObjectFilter.base out.2 in
  Filter.name b' = Filter.name b /\
  Filter.count_funcs b' = Filter.count_funcs b /\
  Filter.count_funcs_total b' = Filter.count_funcs_total b /\
  Filter.count_funcs_passing b' = Filter.count_funcs_passing b /\
  Filter.details b' = Filter.details b /\
  Filter.hooks b' = Filter.hooks b /\
  Filter.passthrough b' = Filter.passthrough b /\
  ObjectFilter.count_events out.2 = ObjectFilter.count_events self /\
  ObjectFilter.filtered out.2 = ObjectFilter.filtered self /\
  Filter.was_passed b' = match out.1 with [] => false | _ :: _ => true end.
Proof.
  cbn zeta. unfold ObjectFilter.__call__, ObjectFilter.len.
  destruct (Filter.passthrough (ObjectFilter.base self)); simpl.
  - destruct collection; simpl; repeat split; reflexivity.
  - destruct (ObjectFilter.filtered self event collection); simpl;
      repeat split; reflexivity.
Qed.

Section object_list.
Context {Event World Obj : Type}.
Implicit Types self pre post rest : ObjectFilterList.t Event World Obj.
Implicit Types filter : ObjectFilter.t Event World Obj.
Implicit Types event : Event.
Implicit Types collection retained : list Obj.

Lemma olist_call_cons filter rest event collection :
  ObjectFilterList.__call__ (filter :: rest) event collection =
  match (ObjectFilter.__call__ filter event collection).1 with
  | [] => ([], (ObjectFilter.__call__ filter event collection).2 :: rest)
  | _ :: _ =>
      ((ObjectFilterList.__call__ rest event
          (ObjectFilter.__call__ filter event collection).1).1,
       (ObjectFilter.__call__ filter event collection).2
       :: (ObjectFilterList.__call__ rest event
             (ObjectFilter.__call__ filter event collection).1).2)
  end.
Proof.
  cbn [ObjectFilterList.__call__].
  destruct (ObjectFilter.__call__ filter event collection) as [[|x c0] f'];
    [reflexivity|].
  cbn [fst snd].
  by destruct (ObjectFilterList.__call__ rest event (x :: c0)).
Qed.

Lemma olist_call_length self event collection :
  length (ObjectFilterList.__call__ self event collection).2 = length self.
Proof.
  revert collection. induction self as [|filter rest IH]; intros collection;
    [reflexivity|].
  rewrite olist_call_cons.
  destruct (ObjectFilter.__call__ filter event collection).1; simpl;
    [reflexivity | by rewrite IH].
Qed.

Lemma olist_call_app pre post event collection :
  pre = [] \/ (ObjectFilterList.__call__ pre event collection).1 <> [] ->
  ObjectFilterList.__call__ (pre ++ post) event collection =
  ((ObjectFilterList.__call__ post event
      (ObjectFilterList.__call__ pre event collection).1).1,
   (ObjectFilterList.__call__ pre event collection).2
   ++ (ObjectFilterList.__call__ post event
         (ObjectFilterList.__call__ pre event collection).1).2).
Proof.
  revert collection. induction pre as [|filter pre IH]; intros collection Hgo.
  - cbn [ObjectFilterList.__call__ fst snd app].
    by destruct (ObjectFilterList.__call__ post event collection).
  - destruct Hgo as [[=]|Hgo].
    change ((filter :: pre) ++ post) with (filter :: (pre ++ post)).
    rewrite !olist_call_cons. rewrite olist_call_cons in Hgo.
    destruct (ObjectFilter.__call__ filter event collection).1 as [|x c0];
      [contradiction|].
    cbn [fst snd] in *. rewrite IH by (by right). reflexivity.
Qed.

Lemma olist_call_app_stop pre post event collection :
  pre <> [] ->
  (ObjectFilterList.__call__ pre event collection).1 = [] ->
  ObjectFilterList.__call__ (pre ++ post) event collection =
  ([], (ObjectFilterList.__call__ pre event collection).2 ++ post).
Proof.
  revert collection. induction pre as [|filter pre IH]; intros collection Hne;
    [contradiction|].
  change ((filter :: pre) ++ post) with (filter :: (pre ++ post)).
  rewrite !olist_call_cons.
  destruct (ObjectFilter.__call__ filter event collection).1 as [|x c0];
    [reflexivity|].
  cbn [fst snd]. intros Hstop. destruct pre as [|next pre].
  - discriminate.
  - rewrite IH by (discriminate || exact Hstop). reflexivity.
Qed.

Lemma olist_call_preserves (R : list Obj -> list Obj -> Prop) self event
    collection :
  (forall c, R c c) ->
  (forall c, R [] c) ->
  (forall c1 c2 c3, R c1 c2 -> R c2 c3 -> R c1 c3) ->
  Forall (fun filter => forall event c,
            R (ObjectFilter.filtered filter event c) c) self ->
  R (ObjectFilterList.__call__ self event collection).1 collection.
Proof.
  intros Hrefl Hnil Htrans. revert collection.
  induction self as [|filter rest IH]; intros collection Hall.
  - apply Hrefl.
  - apply Forall_cons in Hall as [Hf Hall]. rewrite olist_call_cons.
    destruct (object_call_counters filter event collection) as (Hret & _).
    cbn zeta in Hret.
    destruct (ObjectFilter.__call__ filter event collection).1 as [|x c0]
      eqn:Hc0; [apply Hnil|].
    cbn [fst]. eapply Htrans; [apply IH, Hall|].
    rewrite Hret. destruct (Filter.passthrough _); [apply Hrefl | apply Hf].
Qed.




End object_list.

(** X18: a list of object filters hands the collection from filter to
    filter.  The call keeps the length of the list.  As long as the
    filters so far have retained something, the rest of the list is
    called on what they retained; as soon as the filters so far have
    retained nothing, the call returns the empty collection and leaves
    the rest of the list as it was. *)
Theorem object_list_composes {Event World Obj : Type}
    (pre post : ObjectFilterList.t Event World Obj) (event : Event)
    (collection : list Obj) :
  let r := ObjectFilterList.__call__ pre event collection in
  length (ObjectFilterList.__call__ (pre ++ post) event collection).2
  = length (pre ++ post) /\
  (pre = [] \/ r.1 <> [] ->
   ObjectFilterList.__call__ (pre ++ post) event collection =
   ((ObjectFilterList.__call__ post event r.1).1,
    r.2 ++ (ObjectFilterList.__call__ post event r.1).2)) /\
  (pre <> [] -> r.1 = [] ->
   ObjectFilterList.__call__ (pre ++ post) event collection
   = ([], r.2 ++ post)).
Proof.
  intros r. split; [apply olist_call_length|]. split.
  - apply olist_call_app.
  - apply olist_call_app_stop.
Qed.

(** Keeping the even numbers and then the numbers below 3 of
    [1; 2; 3; 4] retains [2]; keeping the numbers below 1 first retains
    nothing and leaves the second filter uncalled. *)
Lemma object_list_composes_witness :
  (ObjectFilterList.__call__ [Scenario.evens false; Scenario.below 3 false]
     () [1; 2; 3; 4]%nat).1 = [2%nat] /\
  exists first,
    ObjectFilterList.__call__ [Scenario.below 1 false; Scenario.evens false]
      () [1; 2; 3; 4]%nat = ([], [first; Scenario.evens false]).
Proof.
  split.
  - destruct (object_list_composes [Scenario.evens false]
                [Scenario.below 3 false] () [1; 2; 3; 4]%nat)
      as (_ & Hgo & _).
    change ([Scenario.evens false; Scenario.below 3 false])
      with ([Scenario.evens false] ++ [Scenario.below 3 false]).
    rewrite Hgo; [reflexivity | right; discriminate].
  - destruct (object_list_composes [Scenario.below 1 false]
                [Scenario.evens false] () [1; 2; 3; 4]%nat)
      as (_ & _ & Hstop).
    eexists.
    change ([Scenario.below 1 false; Scenario.evens false])
      with ([Scenario.below 1 false] ++ [Scenario.evens false]).
    rewrite Hstop; [reflexivity | discriminate | reflexivity].
Defined.

(** X19: a list of object filters invents no objects.  When the
    [filtered] of every filter returns a sublist of the collection it is
    given, the list returns a sublist of the collection it is given; when
    every [filtered] returns no more objects than it is given, so does
    the list. *)
Theorem object_list_narrows {Event World Obj : Type}
    (self : ObjectFilterList.t Event World Obj) (event : Event)
    (collection : list Obj) :
  (Forall (fun filter => forall event c,
             sublist (ObjectFilter.filtered filter event c) c) self ->
   sublist (ObjectFilterList.__call__ self event collection).1 collection) /\
  (Forall (fun filter => shrinking (ObjectFilter.filtered filter)) self ->
   (length (ObjectFilterList.__call__ self event collection).1
    <= length collection)%nat).
Proof.
  split.
  - apply (olist_call_preserves sublist).
    + reflexivity.
    + apply sublist_nil_l.
    + intros c1 c2 c3 H12 H23. by etrans.
  - apply (olist_call_preserves
             (fun c1 c2 : list Obj => (length c1 <= length c2)%nat)).
    + reflexivity.
    + intros c. simpl. lia.
    + intros c1 c2 c3 H12 H23. lia.
Qed.

Lemma sublist_list_filter {A : Type} (p : A -> bool) (l : list A) :
  sublist (List.filter p l) l.
Proof.
  induction l as [|x l IH]; simpl; [constructor|].
  destruct (p x); by constructor.
Qed.

(** Keeping the even numbers and then the numbers below 3 returns a
    sublist of the collection given. *)
Lemma object_list_narrows_witness :
  sublist
    (ObjectFilterList.__call__ [Scenario.evens false; Scenario.below 3 false]
       () [1; 2; 3; 4]%nat).1
    [1; 2; 3; 4]%nat.
Proof.
  destruct (object_list_narrows
              [Scenario.evens false; Scenario.below 3 false] ()
              [1; 2; 3; 4]%nat) as [Hsub _].
  apply Hsub. repeat constructor; intros event c; apply sublist_list_filter.
Defined.


